(** * URL shortener: a shallow embedding of the service and its backoff wrapper

    The development follows the Python sources module by module:
    - [utils.py]          the [backoff] decorator;
    - [models.py]         the request model [GenerateShortURLInput];
    - [mongo_service.py]  the storage gateway over one MongoDB collection;
    - [urls_shortener.py] the four request handlers.

    Handlers are computations in a state-and-exception monad over a [World]
    holding the collection, the schedule of storage events, the random
    source, the closure variables of the four [@backoff()] decorations and
    the trace of sleeps and logged errors. *)

From Stdlib Require Import List String Ascii ZArith QArith Bool Lia Arith.
Import ListNotations.

Set Implicit Arguments.
Close Scope Q_scope.

(** ** Values *)

(** JSON values as [json.loads] produces them (integers stand for numbers). *)
#[warnings="-register-all"]
Inductive Json : Type :=
| JNull
| JBool (b : bool)
| JNum (n : Z)
| JStr (s : string)
| JArr (items : list Json)
| JObj (members : list (string * Json)).

(** Python truthiness of a JSON value ([not v] is [negb (truthy v)]). *)
Definition truthy (v : Json) : bool :=
  match v with
  | JNull => false
  | JBool b => b
  | JNum n => negb (n =? 0)%Z
  | JStr s => negb (s =? EmptyString)%string
  | JArr items => match items with [] => false | _ => true end
  | JObj members => match members with [] => false | _ => true end
  end.

(** Truthiness of a [str]. *)
Definition truthy_str (s : string) : bool := negb (s =? EmptyString)%string.

(** [dict.get(key)]: the value, or [None] (here [JNull]) when absent. *)
Fixpoint dict_get (members : list (string * Json)) (key : string) : Json :=
  match members with
  | [] => JNull
  | (k, v) :: rest => if (k =? key)%string then v else dict_get rest key
  end.

Fixpoint dict_has (members : list (string * Json)) (key : string) : bool :=
  match members with
  | [] => false
  | (k, _) :: rest => if (k =? key)%string then true else dict_has rest key
  end.

(** [aiohttp.web.Response]. *)
Inductive Body : Type :=
| Text (t : string)
| JsonBody (j : Json).

Record Response : Type := { body : Body; status : Z }.

(** [web.Response(text=..., status=...)] *)
Definition web_Response (text : string) (st : Z) : Response :=
  {| body := Text text; status := st |}.

(** [web.json_response(data, status=...)] *)
Definition web_json_response (data : Json) (st : Z) : Response :=
  {| body := JsonBody data; status := st |}.

(** One entry of pydantic's [ValidationError.errors()]. *)
Record ErrorDetails : Type := { loc : list string; msg : string }.

(** The exceptions that travel through the handlers; all of them are
    subclasses of Python's [Exception]. *)
Inductive Exn : Type :=
| JSONDecodeError
| ValidationError (errors : list ErrorDetails)
| TypeError
| AttributeError
| DuplicateKeyError
| InvalidDocument
| ConnectionFailure
| HTTPFound (location : string).

(** The failures that [backoff] neither answers at once nor lets through:
    everything its [except Exception] clause catches. *)
Definition unclassified (e : Exn) : bool :=
  match e with
  | JSONDecodeError | ValidationError _ => false
  | _ => true
  end.

(** ** The stored documents *)

Record Doc : Type := {
  short_url_path : string;
  long_url : string;
  visits : Z
}.

(** What may happen when a storage call reaches the server: it is served,
    the server cannot be reached (pymongo raises), or the write of another
    client lands first and then the call is served. *)
Inductive StorageEvent : Type :=
| Served
| Unavailable
| RacedInsert (short long : string).

(** ** The closure variables of [backoff] *)

(** One [current_sleep_time] per decoration [@backoff()]: the variable is
    created when the decorator is applied to the method, not when the
    method is called. *)
Inductive Wrapped : Type :=
| W_generate_short_url
| W_get_long_url
| W_get_short_url_visits
| W_generate_unique_short_url_path.

Record Delays : Type := {
  d_generate_short_url : Q;
  d_get_long_url : Q;
  d_get_short_url_visits : Q;
  d_generate_unique_short_url_path : Q
}.

Definition get_delay (c : Wrapped) (d : Delays) : Q :=
  match c with
  | W_generate_short_url => d_generate_short_url d
  | W_get_long_url => d_get_long_url d
  | W_get_short_url_visits => d_get_short_url_visits d
  | W_generate_unique_short_url_path => d_generate_unique_short_url_path d
  end.

Definition set_delay (c : Wrapped) (v : Q) (d : Delays) : Delays :=
  match c with
  | W_generate_short_url =>
      {| d_generate_short_url := v;
         d_get_long_url := d_get_long_url d;
         d_get_short_url_visits := d_get_short_url_visits d;
         d_generate_unique_short_url_path := d_generate_unique_short_url_path d |}
  | W_get_long_url =>
      {| d_generate_short_url := d_generate_short_url d;
         d_get_long_url := v;
         d_get_short_url_visits := d_get_short_url_visits d;
         d_generate_unique_short_url_path := d_generate_unique_short_url_path d |}
  | W_get_short_url_visits =>
      {| d_generate_short_url := d_generate_short_url d;
         d_get_long_url := d_get_long_url d;
         d_get_short_url_visits := v;
         d_generate_unique_short_url_path := d_generate_unique_short_url_path d |}
  | W_generate_unique_short_url_path =>
      {| d_generate_short_url := d_generate_short_url d;
         d_get_long_url := d_get_long_url d;
         d_get_short_url_visits := d_get_short_url_visits d;
         d_generate_unique_short_url_path := v |}
  end.

(** ** The world *)

Record World : Type := {
  urls_col : list Doc;              (* the collection, in insertion order *)
  network : list StorageEvent;      (* one event per storage call; none left: served *)
  random_src : nat -> nat;          (* the draws of the [random] module *)
  random_pos : nat;                 (* how many draws were consumed *)
  delays : Delays;                  (* the four [current_sleep_time] variables *)
  slept : list (Wrapped * Q);       (* [asyncio.sleep] calls, oldest first *)
  logged : list (Wrapped * Exn)     (* [logging.error] calls, oldest first *)
}.

Definition set_urls_col (v : list Doc) (w : World) : World :=
  {| urls_col := v; network := network w; random_src := random_src w;
     random_pos := random_pos w; delays := delays w; slept := slept w;
     logged := logged w |}.

Definition set_network (v : list StorageEvent) (w : World) : World :=
  {| urls_col := urls_col w; network := v; random_src := random_src w;
     random_pos := random_pos w; delays := delays w; slept := slept w;
     logged := logged w |}.

Definition set_random_pos (v : nat) (w : World) : World :=
  {| urls_col := urls_col w; network := network w; random_src := random_src w;
     random_pos := v; delays := delays w; slept := slept w;
     logged := logged w |}.

Definition set_delays (v : Delays) (w : World) : World :=
  {| urls_col := urls_col w; network := network w; random_src := random_src w;
     random_pos := random_pos w; delays := v; slept := slept w;
     logged := logged w |}.

Definition set_slept (v : list (Wrapped * Q)) (w : World) : World :=
  {| urls_col := urls_col w; network := network w; random_src := random_src w;
     random_pos := random_pos w; delays := delays w; slept := v;
     logged := logged w |}.

Definition set_logged (v : list (Wrapped * Exn)) (w : World) : World :=
  {| urls_col := urls_col w; network := network w; random_src := random_src w;
     random_pos := random_pos w; delays := delays w; slept := slept w;
     logged := v |}.

(** ** The monad of handlers *)

(** A call returns, raises, or is still running when the fuel of a loop is
    spent. *)
Inductive Outcome (A : Type) : Type :=
| Return (a : A)
| Raise (e : Exn)
| Diverge.

Arguments Return {A} a.
Arguments Raise {A} e.
Arguments Diverge {A}.

Definition M (A : Type) : Type := World -> Outcome A * World.

Definition ret {A} (a : A) : M A := fun w => (Return a, w).

Definition raise {A} (e : Exn) : M A := fun w => (Raise e, w).

Definition bind {A B} (m : M A) (k : A -> M B) : M B :=
  fun w =>
    match m w with
    | (Return a, w1) => k a w1
    | (Raise e, w1) => (Raise e, w1)
    | (Diverge, w1) => (Diverge, w1)
    end.

Declare Scope py_scope.
Delimit Scope py_scope with py.
Notation "x <- m ;; k" := (bind m (fun x => k))
  (at level 61, m at next level, right associativity) : py_scope.
Notation "m ;;; k" := (bind m (fun _ => k))
  (at level 61, right associativity) : py_scope.
Open Scope py_scope.

(** ** utils.py *)

(** The parameters of [backoff(start_sleep_time, factor, border_sleep_time)].
    Delays are rationals: every delay the code computes is the start value
    doubled some number of times, which binary floating point does exactly,
    so the comparisons with the border agree with the ones Python makes. *)
Record BackoffParams : Type := {
  start_sleep_time : Q;
  factor : Q;
  border_sleep_time : Q
}.

(** [backoff()] as every decoration in [urls_shortener.py] calls it. *)
Definition backoff_defaults : BackoffParams :=
  {| start_sleep_time := (1 # 10)%Q; factor := (2 # 1)%Q;
     border_sleep_time := (10 # 1)%Q |}.

Definition Qlt_bool (x y : Q) : bool := negb (Qle_bool y x).

(** [{'field': '.'.join(error['loc']), 'message': error['msg']}] *)
Definition error_entry (e : ErrorDetails) : Json :=
  JObj [("field"%string, JStr (String.concat "." (loc e)));
        ("message"%string, JStr (msg e))].

Definition invalid_json_response : Response :=
  web_Response "Invalid JSON data in the request body." 400.

Definition validation_response (errors : list ErrorDetails) : Response :=
  web_json_response (JObj [("errors"%string, JArr (map error_entry errors))]) 400.

Definition internal_error_response : Response :=
  web_Response "An internal server error occurred." 500.

Section Backoff.

Variable params : BackoffParams.
(** The decoration whose closure variable this wrapper reads and writes. *)
Variable cell : Wrapped.
Variable A : Type.
(** The wrapped coroutine, applied to its arguments. *)
Variable func : M A.

Definition current_sleep_time (w : World) : Q := get_delay cell (delays w).

(** The tail of one failed pass through the loop body:
    [logging.error(str(e))], [await asyncio.sleep(current_sleep_time)],
    [current_sleep_time *= factor]. *)
Definition retry_later (e : Exn) (w : World) : World :=
  let w1 := set_logged (logged w ++ [(cell, e)]) w in
  let w2 := set_slept (slept w1 ++ [(cell, current_sleep_time w1)]) w1 in
  set_delays
    (set_delay cell (Qred (current_sleep_time w2 * factor params)%Q) (delays w2))
    w2.

(** The coroutine [inner] that replaces [func]. The result is the value of [func], or a
    response the wrapper built itself. *)
Fixpoint inner (fuel : nat) : M (A + Response) :=
  fun w =>
    if Qlt_bool (current_sleep_time w) (border_sleep_time params) then
      match fuel with
      | O => (Diverge, w)
      | S fuel' =>
          match func w with
          | (Return a, w1) => (Return (inl a), w1)
          | (Raise JSONDecodeError, w1) =>
              (Return (inr invalid_json_response), w1)
          | (Raise (ValidationError errors), w1) =>
              (Return (inr (validation_response errors)), w1)
          | (Raise e, w1) => inner fuel' (retry_later e w1)
          | (Diverge, w1) => (Diverge, w1)
          end
      end
    else (Return (inr internal_error_response), w).

End Backoff.

(** A decorated request handler: both branches of the result are responses. *)
Definition backoff_handler (cell : Wrapped) (func : M Response) (fuel : nat)
  : M Response :=
  r <- inner backoff_defaults cell func fuel ;;
  ret (match r with inl resp => resp | inr resp => resp end).

(** ** mongo_service.py *)

(** [insert_one] under the two unique indexes of [_create_indexes]. *)
Definition insert_one (d : Doc) (col : list Doc) : Outcome unit * list Doc :=
  if existsb (fun x => (short_url_path x =? short_url_path d)%string
                       || (long_url x =? long_url d)%string) col
  then (Raise DuplicateKeyError, col)
  else (Return tt, col ++ [d]).

(** [update_one]: the first matching document is updated, if there is one. *)
Fixpoint update_one (flt : Doc -> bool) (upd : Doc -> Doc) (col : list Doc)
  : list Doc :=
  match col with
  | [] => []
  | d :: rest => if flt d then upd d :: rest else d :: update_one flt upd rest
  end.

(** The insert of another client: it is subject to the same indexes, and
    its failure is that client's business. *)
Definition raced_insert (short long : string) (col : list Doc) : list Doc :=
  snd (insert_one {| short_url_path := short; long_url := long; visits := 0 |} col).

(** One round trip to the server: the next event of the schedule decides
    whether the operation runs, and on which collection. *)
Definition storage_call {A} (op : list Doc -> Outcome A * list Doc) : M A :=
  fun w =>
    match network w with
    | [] =>
        let (o, col) := op (urls_col w) in (o, set_urls_col col w)
    | Served :: rest =>
        let (o, col) := op (urls_col w) in
        (o, set_urls_col col (set_network rest w))
    | Unavailable :: rest => (Raise ConnectionFailure, set_network rest w)
    | RacedInsert short long :: rest =>
        let (o, col) := op (raced_insert short long (urls_col w)) in
        (o, set_urls_col col (set_network rest w))
    end.

(** [_find_one_by_key_value]: the two keys are the record's projections. *)
Definition _find_one_by_key_value {A} (find_key : Doc -> string) (value : string)
    (selected_key : Doc -> A) : M (option A) :=
  storage_call (fun col =>
    (Return (option_map selected_key
               (find (fun d => (find_key d =? value)%string) col)), col)).

Definition insert_url_mapping (short_url_path0 long_url0 : string) : M unit :=
  storage_call (insert_one {| short_url_path := short_url_path0;
                              long_url := long_url0; visits := 0 |}).

(** [bool(...)] of an [Optional[str]]. *)
Definition bool_of_optional_str (o : option string) : bool :=
  match o with
  | Some s => truthy_str s
  | None => false
  end.

Definition is_short_url_path_exist (path : string) : M bool :=
  r <- _find_one_by_key_value short_url_path path short_url_path ;;
  ret (bool_of_optional_str r).

Definition find_short_url_path_by_long_url (long_url0 : string)
  : M (option string) :=
  _find_one_by_key_value long_url long_url0 short_url_path.

Definition find_long_url_by_short_url_path (short_url_path0 : string)
  : M (option string) :=
  _find_one_by_key_value short_url_path short_url_path0 long_url.

Definition inc_visits (d : Doc) : Doc :=
  {| short_url_path := short_url_path d; long_url := long_url d;
     visits := visits d + 1 |}.

Definition increment_short_url_path_counter (short_url_path0 : string) : M unit :=
  storage_call (fun col =>
    (Return tt,
     update_one (fun d => (short_url_path d =? short_url_path0)%string)
                inc_visits col)).

Definition find_short_url_path_visits (short_url_path0 : string) : M (option Z) :=
  _find_one_by_key_value short_url_path short_url_path0 visits.

(** ** models.py and urls_shortener.py *)

(** The service object: [mongo_service] is the collection of the world. *)
Record URLShortenerApp : Type := {
  _link_length : Z;
  _domain : string;
  _protocol : string
}.

(** What a handler reads from an [aiohttp] request: the body as
    [json.loads] parses it ([None] when it does not parse) and
    [match_info['short_url_path']]. *)
Record Request : Type := {
  json_body : option Json;
  match_info : string
}.

(** [await request.json()] *)
Definition request_json (request : Request) : M Json :=
  match json_body request with
  | Some data => ret data
  | None => raise JSONDecodeError
  end.

(** [data.get(key)] on a parsed body: only a dict has the method. *)
Definition py_get (data : Json) (key : string) : M Json :=
  match data with
  | JObj members => ret (dict_get members key)
  | _ => raise AttributeError
  end.

(** [string.ascii_letters + string.digits] *)
Definition allowed_characters : string :=
  "abcdefghijklmnopqrstuvwxyzABCDEFGHIJKLMNOPQRSTUVWXYZ0123456789".

(** [random.choice(seq)]: the next draw picks the index. *)
Definition random_choice (seq : string) : M ascii :=
  fun w =>
    let i := Nat.modulo (random_src w (random_pos w)) (String.length seq) in
    (Return (nth i (list_ascii_of_string seq) "a"%char),
     set_random_pos (S (random_pos w)) w).

(** [''.join(random.choice(allowed_characters) for _ in range(n))] *)
Fixpoint random_string (n : nat) : M string :=
  match n with
  | O => ret EmptyString
  | S n' =>
      c <- random_choice allowed_characters ;;
      rest <- random_string n' ;;
      ret (String c rest)
  end.

Definition _generate_short_url_path (app : URLShortenerApp) : M string :=
  random_string (Z.to_nat (_link_length app)).

(** [f'{self._protocol}://{self._domain}/{path}'] *)
Definition _generate_full_url (app : URLShortenerApp) (path : string) : string :=
  (_protocol app ++ "://" ++ _domain app ++ "/" ++ path)%string.

(** The body of [_generate_unique_short_url_path]: [while True]. *)
Fixpoint unique_path_loop (app : URLShortenerApp) (fuel : nat) : M string :=
  match fuel with
  | O => fun w => (Diverge, w)
  | S fuel' =>
      path <- _generate_short_url_path app ;;
      taken <- is_short_url_path_exist path ;;
      if negb taken then ret path else unique_path_loop app fuel'
  end.

(** [_generate_unique_short_url_path] as decorated: a path, or the
    response the wrapper returns in its place. *)
Definition _generate_unique_short_url_path (app : URLShortenerApp) (fuel : nat)
  : M (string + Response) :=
  inner backoff_defaults W_generate_unique_short_url_path
        (unique_path_loop app fuel) fuel.

Definition short_url_response (app : URLShortenerApp) (path : string) : Response :=
  web_json_response (JObj [("short_url"%string, JStr (_generate_full_url app path))]) 200.

Definition long_url_not_specified : Response :=
  web_Response "long_url parameter was not specified" 400.

Definition path_not_provided : Response :=
  web_Response "short url path was not provided" 400.

Section Handlers.

(** pydantic's [AnyUrl] applied to the JSON value of the field: [None]
    when the value is accepted, the message of the error otherwise. *)
Variable any_url_error : Json -> option string.

(** [GenerateShortURLInput] applied to the unpacked [data]: unpacking needs a mapping, the one
    field is required, other keys are ignored. *)
Definition GenerateShortURLInput (data : Json) : M unit :=
  match data with
  | JObj members =>
      if dict_has members "long_url" then
        match any_url_error (dict_get members "long_url") with
        | None => ret tt
        | Some m =>
            raise (ValidationError [{| loc := ["long_url"%string]; msg := m |}])
        end
      else
        raise (ValidationError
                 [{| loc := ["long_url"%string]; msg := "Field required" |}])
  | _ => raise TypeError
  end.

(** The part of [generate_short_url] after the lookup found nothing:
    a fresh path is generated and the mapping inserted. When the wrapper
    of the generator gave up, [short_url_path] is its response object and
    no path. What the driver makes of such a value is decided outside
    these sources; the model takes the insert to be refused. *)
Definition create_mapping (app : URLShortenerApp) (fuel : nat)
    (long_url0 : string) : M Response :=
  short_url_path0 <- _generate_unique_short_url_path app fuel ;;
  match short_url_path0 with
  | inl path =>
      insert_url_mapping path long_url0 ;;;
      ret (short_url_response app path)
  | inr _ => storage_call (fun col => (Raise InvalidDocument, col))
  end.

(** [generate_short_url] without its decoration. The gateway is typed
    over strings: a value that is truthy and not a string has no reading
    there, and none passes the validation above. *)
Definition generate_short_url_body (app : URLShortenerApp) (fuel : nat)
    (request : Request) : M Response :=
  data <- request_json request ;;
  GenerateShortURLInput data ;;;
  long_url0 <- py_get data "long_url" ;;
  if negb (truthy long_url0) then ret long_url_not_specified
  else
    match long_url0 with
    | JStr long_url1 =>
        found <- find_short_url_path_by_long_url long_url1 ;;
        match found with
        | Some path =>
            if truthy_str path then ret (short_url_response app path)
            else create_mapping app fuel long_url1
        | None => create_mapping app fuel long_url1
        end
    | _ => raise TypeError
    end.

Definition generate_short_url (app : URLShortenerApp) (fuel : nat)
    (request : Request) : M Response :=
  backoff_handler W_generate_short_url
                  (generate_short_url_body app fuel request) fuel.

End Handlers.

(** [redirect_to_original_url]: the one handler without a decoration. *)
Definition redirect_to_original_url (request : Request) : M Response :=
  let short_url_path0 := match_info request in
  if negb (truthy_str short_url_path0) then ret path_not_provided
  else
    found <- find_long_url_by_short_url_path short_url_path0 ;;
    match found with
    | Some long_url0 =>
        if truthy_str long_url0 then
          increment_short_url_path_counter short_url_path0 ;;;
          raise (HTTPFound long_url0)
        else ret (web_Response "urls were not found" 400)
    | None => ret (web_Response "urls were not found" 400)
    end.

Definition get_long_url_body (request : Request) : M Response :=
  let short_url_path0 := match_info request in
  if negb (truthy_str short_url_path0) then ret path_not_provided
  else
    found <- find_long_url_by_short_url_path short_url_path0 ;;
    match found with
    | Some long_url0 =>
        if truthy_str long_url0 then
          ret (web_json_response (JObj [("long_url"%string, JStr long_url0)]) 200)
        else ret (web_Response "long url doesn't exist" 400)
    | None => ret (web_Response "long url doesn't exist" 400)
    end.

Definition get_long_url (fuel : nat) (request : Request) : M Response :=
  backoff_handler W_get_long_url (get_long_url_body request) fuel.

(** [{'visits': visits}] with [visits] an [int] or [None]. *)
Definition visits_json (visits0 : option Z) : Json :=
  JObj [("visits"%string, match visits0 with Some n => JNum n | None => JNull end)].

Definition get_short_url_visits_body (request : Request) : M Response :=
  let short_url_path0 := match_info request in
  if negb (truthy_str short_url_path0) then ret path_not_provided
  else
    visits0 <- find_short_url_path_visits short_url_path0 ;;
    ret (web_json_response (visits_json visits0) 200).

Definition get_short_url_visits (fuel : nat) (request : Request) : M Response :=
  backoff_handler W_get_short_url_visits (get_short_url_visits_body request) fuel.

(** ** main.py: the routes and the service at start-up *)

Inductive Endpoint : Type :=
| GenerateShortURL      (* POST /generate_short_url *)
| ResolveAndRedirect    (* GET /{short_url_path} *)
| GetLongURL            (* GET /get_long_url/{short_url_path} *)
| GetVisitCount.        (* GET /count/{short_url_path} *)

Definition handle (any_url_error : Json -> option string) (app : URLShortenerApp)
    (fuel : nat) (ep : Endpoint) (request : Request) : M Response :=
  match ep with
  | GenerateShortURL => generate_short_url any_url_error app fuel request
  | ResolveAndRedirect => redirect_to_original_url request
  | GetLongURL => get_long_url fuel request
  | GetVisitCount => get_short_url_visits fuel request
  end.

(** Requests served one after the other. *)
Fixpoint serve (any_url_error : Json -> option string) (app : URLShortenerApp)
    (fuel : nat) (requests : list (Endpoint * Request)) (w : World)
  : list (Outcome Response) * World :=
  match requests with
  | [] => ([], w)
  | (ep, request) :: rest =>
      let (o, w1) := handle any_url_error app fuel ep request w in
      let (os, w2) := serve any_url_error app fuel rest w1 in
      (o :: os, w2)
  end.

Definition fresh_delays : Delays :=
  let d := start_sleep_time backoff_defaults in
  {| d_generate_short_url := d; d_get_long_url := d;
     d_get_short_url_visits := d; d_generate_unique_short_url_path := d |}.

(** The world when the module [urls_shortener] has just been imported,
    over a given collection, schedule and random source. *)
Definition start_world (col : list Doc) (events : list StorageEvent)
    (rnd : nat -> nat) : World :=
  {| urls_col := col; network := events; random_src := rnd; random_pos := 0;
     delays := fresh_delays; slept := []; logged := [] |}.

(** [URLShortenerApp(..., link_length=5)] of [main.py], over test settings. *)
Definition test_app : URLShortenerApp :=
  {| _link_length := 5; _domain := "svc.test"; _protocol := "https" |}.

(** A stand-in for [AnyUrl] in examples: strings that start with
    [http://] or [https://] and go on are accepted. *)
Definition sample_any_url_error (v : Json) : option string :=
  match v with
  | JStr s =>
      if (String.prefix "http://" s && (7 <? String.length s)
          || String.prefix "https://" s && (8 <? String.length s))%bool
      then None
      else Some "Input should be a valid URL"%string
  | _ => Some "URL input should be a string or URL"%string
  end.

Definition post (url : string) : Request :=
  {| json_body := Some (JObj [("long_url"%string, JStr url)]);
     match_info := EmptyString |}.

Definition get (path : string) : Request :=
  {| json_body := None; match_info := path |}.

(** ** Observations on a world *)

Definition Wrapped_eqb (a b : Wrapped) : bool :=
  match a, b with
  | W_generate_short_url, W_generate_short_url => true
  | W_get_long_url, W_get_long_url => true
  | W_get_short_url_visits, W_get_short_url_visits => true
  | W_generate_unique_short_url_path, W_generate_unique_short_url_path => true
  | _, _ => false
  end.

(** The delays one wrapper slept, oldest first. *)
Definition sleeps_of (c : Wrapped) (w : World) : list Q :=
  map snd (filter (fun p => Wrapped_eqb (fst p) c) (slept w)).

(** The failures one wrapper logged, oldest first. *)
Definition failures_of (c : Wrapped) (w : World) : list Exn :=
  map snd (filter (fun p => Wrapped_eqb (fst p) c) (logged w)).

(** [current_sleep_time *= factor] with the default factor. *)
Definition grow (q : Q) : Q := Qred (q * factor backoff_defaults)%Q.

(** The delays of [k] failed attempts in a row that start at [q]. *)
Fixpoint delays_from (q : Q) (k : nat) : list Q :=
  match k with
  | O => []
  | S k' => q :: delays_from (grow q) k'
  end.

(** The wrapper is still willing to run the operation. *)
Definition live (c : Wrapped) (w : World) : Prop :=
  Qlt_bool (current_sleep_time c w) (border_sleep_time backoff_defaults) = true.

(** The delay has reached the border. *)
Definition exhausted (c : Wrapped) (w : World) : Prop :=
  Qlt_bool (current_sleep_time c w) (border_sleep_time backoff_defaults) = false.

(** [find_short_url_path_visits] read off a collection. *)
Definition visits_of (col : list Doc) (path : string) : option Z :=
  option_map visits (find (fun d => (short_url_path d =? path)%string) col).

(** The two unique indexes. *)
Definition indexes_ok (col : list Doc) : Prop :=
  NoDup (map short_url_path col) /\ NoDup (map long_url col).

(** Every stored path is a non-empty string. *)
Definition paths_nonempty (col : list Doc) : Prop :=
  Forall (fun d => short_url_path d <> EmptyString) col.

(** How many documents map a long URL. *)
Definition mappings_of (col : list Doc) (url : string) : nat :=
  List.length (filter (fun d => (long_url d =? url)%string) col).

(** The decoration of an endpoint, if it has one. *)
Definition cell_of (ep : Endpoint) : option Wrapped :=
  match ep with
  | GenerateShortURL => Some W_generate_short_url
  | ResolveAndRedirect => None
  | GetLongURL => Some W_get_long_url
  | GetVisitCount => Some W_get_short_url_visits
  end.

(** The steps a collection can take in one storage call. *)
Inductive col_step : list Doc -> list Doc -> Prop :=
| step_same : forall col, col_step col col
| step_insert : forall d col, col_step col (snd (insert_one d col))
| step_inc : forall path col,
    col_step col
      (update_one (fun d => (short_url_path d =? path)%string) inc_visits col).

(** A computation keeps a relation between the world before and after. *)
Definition preserves {A} (R : World -> World -> Prop) (m : M A) : Prop :=
  forall w, R w (snd (m w)).

(** ** Further notions used in the statements *)

(** The operation raises an unclassified failure wherever it is run, and
    leaves the wrapper's own variable and trace alone. *)
Definition always_fails (cell : Wrapped) (A : Type) (func : M A) : Prop :=
  forall w0, exists e w1,
    func w0 = (Raise e, w1) /\ unclassified e = true
    /\ current_sleep_time cell w1 = current_sleep_time cell w0
    /\ sleeps_of cell w1 = sleeps_of cell w0
    /\ failures_of cell w1 = failures_of cell w0.

(** The operation that finds the storage unreachable on every call. *)
Definition unreachable_storage : M Response :=
  fun w => (Raise ConnectionFailure, w).

(** Between two worlds, wrapper [c] logged [k] failures, slept the [k]
    delays that start at its old delay, and its variable grew [k] times. *)
Definition grown_by (c : Wrapped) (w w' : World) : Prop :=
  exists k,
    current_sleep_time c w' = Nat.iter k grow (current_sleep_time c w)
    /\ sleeps_of c w' = sleeps_of c w ++ delays_from (current_sleep_time c w) k
    /\ List.length (failures_of c w')
       = (List.length (failures_of c w) + k)%nat.

(** A world in which seven lookups in a row found the storage
    unreachable: the wrapper of [get_long_url] has given up. *)
Definition world_after_outage : World :=
  snd (get_long_url 7 (get "abc12")
         (start_world [] (repeat Unavailable 7) (fun _ => 0%nat))).

(** The mapping of the concrete scenario, with a given counter. *)
Definition stored_abc12 (n : Z) : Doc :=
  {| short_url_path := "abc12"; long_url := "https://example.com/a";
     visits := n |}.

(** The coroutine behind an endpoint, without its decoration. *)
Definition body_of (any_url_error : Json -> option string)
    (app : URLShortenerApp) (fuel : nat) (ep : Endpoint) (request : Request)
  : M Response :=
  match ep with
  | GenerateShortURL => generate_short_url_body any_url_error app fuel request
  | ResolveAndRedirect => redirect_to_original_url request
  | GetLongURL => get_long_url_body request
  | GetVisitCount => get_short_url_visits_body request
  end.

(** The random source of the examples: draw [n] picks character [n / 5],
    so the paths drawn are "aaaaa", "bbbbb", and so on. *)
Definition rnd_by_fives (n : nat) : nat := (n / 5)%nat.

(** One attempt of [generate_short_url] that loses the race: the lookup
    by long URL and the existence test are served, then another client
    inserts the very path before the insert of the handler is served. *)
Definition lost_race (path other_url : string) : list StorageEvent :=
  [Served; Served; RacedInsert path other_url].

(** Seven attempts in a row that each lose the race. *)
Definition seven_lost_races : list StorageEvent :=
  lost_race "aaaaa" "https://other.example/0"
  ++ lost_race "bbbbb" "https://other.example/1"
  ++ lost_race "ccccc" "https://other.example/2"
  ++ lost_race "ddddd" "https://other.example/3"
  ++ lost_race "eeeee" "https://other.example/4"
  ++ lost_race "fffff" "https://other.example/5"
  ++ lost_race "ggggg" "https://other.example/6".

(** No step of the collection lowers a counter. *)
Definition visits_kept (w w' : World) : Prop :=
  forall path n,
    visits_of (urls_col w) path = Some n ->
    exists n', visits_of (urls_col w') path = Some n' /\ (n <= n')%Z.

(** The string [random_string] reads off the random source at a position. *)
Fixpoint draw_string (rnd : nat -> nat) (pos n : nat) : string :=
  match n with
  | O => EmptyString
  | S n' =>
      String (nth (Nat.modulo (rnd pos) (String.length allowed_characters))
                  (list_ascii_of_string allowed_characters) "a"%char)
             (draw_string rnd (S pos) n')
  end.

(** The [k]-th path the generator would draw in a world. *)
Definition candidate (app : URLShortenerApp) (w : World) (k : nat) : string :=
  draw_string (random_src w)
              (random_pos w + k * Z.to_nat (_link_length app))
              (Z.to_nat (_link_length app)).

(** [is_short_url_path_exist] read off a collection. *)
Definition path_taken (col : list Doc) (path : string) : bool :=
  bool_of_optional_str
    (option_map short_url_path
       (find (fun d => (short_url_path d =? path)%string) col)).

(** ** The indexes of the collection *)

(** An index as [index_information] lists it. *)
Record Index : Type := {
  index_name : string;
  index_key : string;
  index_unique : bool
}.

Definition has_index (name : string) (indexes : list Index) : bool :=
  existsb (fun i => (index_name i =? name)%string) indexes.

(** [create_index(key, unique=...)]: an ascending index on one key is
    named [key_1]. An index of that name is left as it is (the server
    refuses other options for it; [_create_indexes] never asks). *)
Definition create_index (key : string) (unique : bool) (indexes : list Index)
  : list Index :=
  if has_index (key ++ "_1") indexes then indexes
  else indexes ++ [{| index_name := key ++ "_1"; index_key := key;
                      index_unique := unique |}].

(** [MongoService._create_indexes]: both tests read the one snapshot
    [index_info] taken before anything is created. *)
Definition _create_indexes (indexes : list Index) : list Index :=
  let index_info := indexes in
  let indexes1 :=
    if negb (has_index "short_url_path_1" index_info)
    then create_index "short_url_path" true indexes
    else indexes in
  if negb (has_index "long_url_1" index_info)
  then create_index "long_url" true indexes1
  else indexes1.

(** ** More notions used in the statements *)

(** [c] is one of [string.ascii_letters + string.digits]. *)
Definition is_alnum (c : ascii) : bool :=
  let n := nat_of_ascii c in
  ((97 <=? n) && (n <=? 122) || (65 <=? n) && (n <=? 90)
   || (48 <=? n) && (n <=? 57))%nat%bool.

(** The first document of a path. *)
Definition doc_of (col : list Doc) (path : string) : option Doc :=
  find (fun d => (short_url_path d =? path)%string) col.

(** The first document of a long URL. *)
Definition doc_of_url (col : list Doc) (url : string) : option Doc :=
  find (fun d => (long_url d =? url)%string) col.

(** Every document a path resolves to is still what the path resolves to. *)
Definition docs_kept (w w' : World) : Prop :=
  forall path d,
    doc_of (urls_col w) path = Some d -> doc_of (urls_col w') path = Some d.

(** A path that resolves keeps its long URL, and its counter does not
    fall. *)
Definition mappings_kept (w w' : World) : Prop :=
  forall path d,
    doc_of (urls_col w) path = Some d ->
    exists d',
      doc_of (urls_col w') path = Some d'
      /\ long_url d' = long_url d /\ (visits d <= visits d')%Z.

(** A POST whose body is the JSON array [[]]: valid JSON, but no mapping. *)
Definition post_array : Request :=
  {| json_body := Some (JArr []); match_info := EmptyString |}.

(** * Properties *)

(** ** Records and the monad *)

Lemma set_urls_col_same (w : World) : set_urls_col (urls_col w) w = w.
Proof. destruct w; reflexivity. Qed.

Lemma get_set_delay_same (c : Wrapped) (v : Q) (d : Delays) :
  get_delay c (set_delay c v d) = v.
Proof. destruct c; reflexivity. Qed.

Lemma get_set_delay_other (c c' : Wrapped) (v : Q) (d : Delays) :
  c <> c' -> get_delay c (set_delay c' v d) = get_delay c d.
Proof. destruct c, c'; intros H; try reflexivity; congruence. Qed.

Lemma Wrapped_eqb_spec (a b : Wrapped) : reflect (a = b) (Wrapped_eqb a b).
Proof. destruct a, b; simpl; constructor; congruence. Qed.

Lemma Wrapped_eqb_refl (a : Wrapped) : Wrapped_eqb a a = true.
Proof. destruct a; reflexivity. Qed.

Lemma Qlt_bool_true (x y : Q) : Qlt_bool x y = true <-> (x < y)%Q.
Proof.
  unfold Qlt_bool. rewrite negb_true_iff. split; intros H.
  - apply Qnot_le_lt. intros L. apply Qle_bool_iff in L. congruence.
  - destruct (Qle_bool y x) eqn:E; [|reflexivity].
    apply Qle_bool_iff in E. exfalso. exact (Qlt_not_le _ _ H E).
Qed.

Lemma Qlt_bool_false (x y : Q) : Qlt_bool x y = false <-> (y <= x)%Q.
Proof.
  unfold Qlt_bool. rewrite negb_false_iff. apply Qle_bool_iff.
Qed.

Lemma live_or_exhausted (c : Wrapped) (w : World) : live c w \/ exhausted c w.
Proof.
  unfold live, exhausted.
  destruct (Qlt_bool _ _); [left|right]; reflexivity.
Qed.

Lemma bind_Return {A B} (m : M A) (k : A -> M B) (w w1 : World) (a : A) :
  m w = (Return a, w1) -> bind m k w = k a w1.
Proof. unfold bind. intros ->. reflexivity. Qed.

Lemma bind_Raise {A B} (m : M A) (k : A -> M B) (w w1 : World) (e : Exn) :
  m w = (Raise e, w1) -> bind m k w = (Raise e, w1).
Proof. unfold bind. intros ->. reflexivity. Qed.

(** ** The wrapper, one pass at a time *)

Section InnerSteps.

Variable cell : Wrapped.
Variable A : Type.
Variable func : M A.

Let run := inner backoff_defaults cell func.

Lemma inner_unfold (fuel : nat) (w : World) :
  run fuel w =
  if Qlt_bool (current_sleep_time cell w) (border_sleep_time backoff_defaults)
  then
    match fuel with
    | O => (Diverge, w)
    | S fuel' =>
        match func w with
        | (Return a, w1) => (Return (inl a), w1)
        | (Raise JSONDecodeError, w1) =>
            (Return (inr invalid_json_response), w1)
        | (Raise (ValidationError errors), w1) =>
            (Return (inr (validation_response errors)), w1)
        | (Raise e, w1) => run fuel' (retry_later backoff_defaults cell e w1)
        | (Diverge, w1) => (Diverge, w1)
        end
    end
  else (Return (inr internal_error_response), w).
Proof. destruct fuel; reflexivity. Qed.

Lemma inner_exhausted (fuel : nat) (w : World) :
  exhausted cell w -> run fuel w = (Return (inr internal_error_response), w).
Proof. unfold exhausted. intros H. rewrite inner_unfold, H. reflexivity. Qed.

Lemma inner_returned (fuel : nat) (w w1 : World) (a : A) :
  live cell w -> func w = (Return a, w1) ->
  run (S fuel) w = (Return (inl a), w1).
Proof. unfold live. intros H E. rewrite inner_unfold, H, E. reflexivity. Qed.

Lemma inner_failed_attempt (fuel : nat) (w w1 : World) (e : Exn) :
  live cell w -> func w = (Raise e, w1) -> unclassified e = true ->
  run (S fuel) w = run fuel (retry_later backoff_defaults cell e w1).
Proof.
  unfold live. intros H E U. rewrite inner_unfold, H, E.
  destruct e; simpl in U; try discriminate; reflexivity.
Qed.

Lemma inner_validation_error (fuel : nat) (w w1 : World) errors :
  live cell w -> func w = (Raise (ValidationError errors), w1) ->
  run (S fuel) w = (Return (inr (validation_response errors)), w1).
Proof. unfold live. intros H E. rewrite inner_unfold, H, E. reflexivity. Qed.


Lemma inner_diverged (fuel : nat) (w w1 : World) :
  live cell w -> func w = (Diverge, w1) -> run (S fuel) w = (Diverge, w1).
Proof. unfold live. intros H E. rewrite inner_unfold, H, E. reflexivity. Qed.

(** The wrapper lets no exception through. *)
Lemma inner_never_raises (fuel : nat) (w : World) (e : Exn) :
  fst (run fuel w) <> Raise e.
Proof.
  revert w. induction fuel as [|fuel IH]; intros w; rewrite inner_unfold.
  - destruct (Qlt_bool _ _); simpl; discriminate.
  - destruct (Qlt_bool _ _); simpl; [|discriminate].
    destruct (func w) as [[a|e0|] w1]; simpl; try discriminate.
    destruct e0; simpl; try discriminate; apply IH.
Qed.

End InnerSteps.

Lemma backoff_handler_never_raises (c : Wrapped) (func : M Response)
    (fuel : nat) (w : World) (e : Exn) :
  fst (backoff_handler c func fuel w) <> Raise e.
Proof.
  unfold backoff_handler, bind.
  pose proof (inner_never_raises c func fuel w) as H.
  destruct (inner backoff_defaults c func fuel w) as [[r|e0|] w1]; simpl in *.
  - discriminate.
  - intros E. apply (H e0). reflexivity.
  - discriminate.
Qed.

Lemma backoff_handler_exhausted (c : Wrapped) (func : M Response)
    (fuel : nat) (w : World) :
  exhausted c w ->
  backoff_handler c func fuel w = (Return internal_error_response, w).
Proof.
  intros H. unfold backoff_handler, bind.
  rewrite (@inner_exhausted c _ func fuel w H). reflexivity.
Qed.

Lemma backoff_handler_retry (c : Wrapped) (func : M Response)
    (fuel : nat) (w w1 : World) (e : Exn) :
  live c w -> func w = (Raise e, w1) -> unclassified e = true ->
  backoff_handler c func (S fuel) w
  = backoff_handler c func fuel (retry_later backoff_defaults c e w1).
Proof.
  intros L E U. unfold backoff_handler, bind.
  rewrite (@inner_failed_attempt c _ func fuel w w1 e L E U). reflexivity.
Qed.

(** ** Relations every request keeps *)

Section Preservation.

Variable R : World -> World -> Prop.
Hypothesis R_refl : forall w, R w w.
Hypothesis R_trans : forall w1 w2 w3, R w1 w2 -> R w2 w3 -> R w1 w3.
Hypothesis R_network : forall w rest, R w (set_network rest w).
Hypothesis R_random : forall w n, R w (set_random_pos n w).
Hypothesis R_col :
  forall w col, col_step (urls_col w) col -> R w (set_urls_col col w).
Hypothesis R_retry :
  forall c e w, R w (retry_later backoff_defaults c e w).

Lemma preserves_ret {A} (a : A) : preserves R (ret a).
Proof. intros w. apply R_refl. Qed.

Lemma preserves_raise {A} (e : Exn) : preserves R (@raise A e).
Proof. intros w. apply R_refl. Qed.

Lemma preserves_bind {A B} (m : M A) (k : A -> M B) :
  preserves R m -> (forall a, preserves R (k a)) -> preserves R (bind m k).
Proof.
  intros Hm Hk w. unfold bind. specialize (Hm w).
  destruct (m w) as [[a|e|] w1]; simpl in *; auto.
  eapply R_trans; [exact Hm | apply Hk].
Qed.

Lemma preserves_storage_call {A} (op : list Doc -> Outcome A * list Doc) :
  (forall col, col_step col (snd (op col))) -> preserves R (storage_call op).
Proof.
  intros Hop w. unfold storage_call.
  destruct (network w) as [|[| |short long] rest].
  - specialize (Hop (urls_col w)).
    destruct (op (urls_col w)) as [o col]; simpl in *. apply R_col, Hop.
  - specialize (Hop (urls_col w)).
    destruct (op (urls_col w)) as [o col]; simpl in *.
    eapply R_trans; [apply (R_network w rest)|].
    apply (R_col (set_network rest w)), Hop.
  - simpl. apply R_network.
  - specialize (Hop (raced_insert short long (urls_col w))).
    destruct (op (raced_insert short long (urls_col w))) as [o col]; simpl in *.
    eapply R_trans; [apply (R_network w rest)|].
    eapply R_trans.
    + apply (R_col (set_network rest w)
               (col := raced_insert short long (urls_col w))).
      apply step_insert.
    + apply (R_col (set_urls_col (raced_insert short long (urls_col w))
                                 (set_network rest w)) (col := col)).
      exact Hop.
Qed.

Lemma preserves_find {A} (find_key : Doc -> string) (value : string)
    (selected_key : Doc -> A) :
  preserves R (_find_one_by_key_value find_key value selected_key).
Proof. apply preserves_storage_call. intros col. apply step_same. Qed.

Lemma preserves_insert (path url : string) :
  preserves R (insert_url_mapping path url).
Proof. apply preserves_storage_call. intros col. apply step_insert. Qed.

Lemma preserves_increment (path : string) :
  preserves R (increment_short_url_path_counter path).
Proof. apply preserves_storage_call. intros col. apply step_inc. Qed.

Lemma preserves_inner {A} (c : Wrapped) (func : M A) (fuel : nat) :
  preserves R func -> preserves R (inner backoff_defaults c func fuel).
Proof.
  intros Hf. induction fuel as [|fuel IH]; intros w; rewrite inner_unfold.
  - destruct (Qlt_bool _ _); apply R_refl.
  - destruct (Qlt_bool _ _); [|apply R_refl].
    specialize (Hf w).
    destruct (func w) as [[a|e|] w1]; simpl in *; auto.
    assert (R w (snd (inner backoff_defaults c func fuel
                        (retry_later backoff_defaults c e w1)))) as Hr.
    { eapply R_trans; [exact Hf|]. eapply R_trans; [apply R_retry | apply IH]. }
    destruct e; simpl; auto.
Qed.

Lemma preserves_backoff_handler (c : Wrapped) (func : M Response) (fuel : nat) :
  preserves R func -> preserves R (backoff_handler c func fuel).
Proof.
  intros Hf. apply preserves_bind.
  - apply preserves_inner, Hf.
  - intros r. apply preserves_ret.
Qed.

Lemma preserves_random_string (n : nat) : preserves R (random_string n).
Proof.
  induction n as [|n IH]; simpl.
  - apply preserves_ret.
  - apply preserves_bind.
    + intros w. apply R_random.
    + intros c. apply preserves_bind; [exact IH|]. intros s. apply preserves_ret.
Qed.

Lemma preserves_is_short_url_path_exist (path : string) :
  preserves R (is_short_url_path_exist path).
Proof.
  apply preserves_bind; [apply preserves_find|]. intros r. apply preserves_ret.
Qed.

Lemma preserves_unique_path_loop (app : URLShortenerApp) (fuel : nat) :
  preserves R (unique_path_loop app fuel).
Proof.
  induction fuel as [|fuel IH]; simpl.
  - intros w. apply R_refl.
  - apply preserves_bind; [apply preserves_random_string|]. intros path.
    apply preserves_bind; [apply preserves_is_short_url_path_exist|].
    intros [|]; simpl; [exact IH | apply preserves_ret].
Qed.

Lemma preserves_create_mapping (app : URLShortenerApp) (fuel : nat)
    (url : string) :
  preserves R (create_mapping app fuel url).
Proof.
  apply preserves_bind.
  - apply preserves_inner, preserves_unique_path_loop.
  - intros [path|resp].
    + apply preserves_bind; [apply preserves_insert|].
      intros _. apply preserves_ret.
    + apply preserves_storage_call. intros col. apply step_same.
Qed.

Lemma preserves_generate_short_url_body any_url_error
    (app : URLShortenerApp) (fuel : nat) (request : Request) :
  preserves R (generate_short_url_body any_url_error app fuel request).
Proof.
  apply preserves_bind.
  { unfold request_json. destruct (json_body request);
      [apply preserves_ret | apply preserves_raise]. }
  intros data. apply preserves_bind.
  { unfold GenerateShortURLInput. destruct data; try apply preserves_raise.
    destruct (dict_has _ _); [|apply preserves_raise].
    destruct (any_url_error _); [apply preserves_raise | apply preserves_ret]. }
  intros _. apply preserves_bind.
  { unfold py_get. destruct data; try apply preserves_raise. apply preserves_ret. }
  intros v. destruct (negb (truthy v)); [apply preserves_ret|].
  destruct v; try apply preserves_raise.
  apply preserves_bind; [apply preserves_find|].
  intros [path|]; [|apply preserves_create_mapping].
  destruct (truthy_str path);
    [apply preserves_ret | apply preserves_create_mapping].
Qed.

Lemma preserves_redirect (request : Request) :
  preserves R (redirect_to_original_url request).
Proof.
  unfold redirect_to_original_url.
  destruct (negb (truthy_str _)); [apply preserves_ret|].
  apply preserves_bind; [apply preserves_find|].
  intros [url|]; [|apply preserves_ret].
  destruct (truthy_str url); [|apply preserves_ret].
  apply preserves_bind; [apply preserves_increment|].
  intros _. apply preserves_raise.
Qed.

Lemma preserves_get_long_url_body (request : Request) :
  preserves R (get_long_url_body request).
Proof.
  unfold get_long_url_body.
  destruct (negb (truthy_str _)); [apply preserves_ret|].
  apply preserves_bind; [apply preserves_find|].
  intros [url|]; [|apply preserves_ret].
  destruct (truthy_str url); apply preserves_ret.
Qed.

Lemma preserves_get_short_url_visits_body (request : Request) :
  preserves R (get_short_url_visits_body request).
Proof.
  unfold get_short_url_visits_body.
  destruct (negb (truthy_str _)); [apply preserves_ret|].
  apply preserves_bind; [apply preserves_find|].
  intros v. apply preserves_ret.
Qed.

(** Whatever the endpoint, the request, the schedule and the fuel. *)
Lemma preserves_handle any_url_error (app : URLShortenerApp) (fuel : nat)
    (ep : Endpoint) (request : Request) :
  preserves R (handle any_url_error app fuel ep request).
Proof.
  destruct ep; simpl.
  - apply preserves_backoff_handler, preserves_generate_short_url_body.
  - apply preserves_redirect.
  - apply preserves_backoff_handler, preserves_get_long_url_body.
  - apply preserves_backoff_handler, preserves_get_short_url_visits_body.
Qed.

Lemma preserves_serve any_url_error (app : URLShortenerApp) (fuel : nat)
    (requests : list (Endpoint * Request)) (w : World) :
  R w (snd (serve any_url_error app fuel requests w)).
Proof.
  revert w. induction requests as [|[ep request] rest IH]; intros w; simpl.
  - apply R_refl.
  - pose proof (preserves_handle any_url_error app fuel ep request w) as H.
    destruct (handle any_url_error app fuel ep request w) as [o w1].
    specialize (IH w1).
    destruct (serve any_url_error app fuel rest w1) as [os w2].
    simpl in *. eapply R_trans; eauto.
Qed.

End Preservation.

(** ** One failed pass of the wrapper *)

Lemma retry_later_delay (c : Wrapped) (e : Exn) (w : World) :
  current_sleep_time c (retry_later backoff_defaults c e w)
  = grow (current_sleep_time c w).
Proof. unfold retry_later, current_sleep_time. simpl. apply get_set_delay_same. Qed.

Lemma retry_later_delay_other (c c' : Wrapped) (e : Exn) (w : World) :
  c <> c' ->
  current_sleep_time c (retry_later backoff_defaults c' e w)
  = current_sleep_time c w.
Proof.
  intros H. unfold retry_later, current_sleep_time. simpl.
  apply get_set_delay_other, H.
Qed.

Lemma retry_later_sleeps (c : Wrapped) (e : Exn) (w : World) :
  sleeps_of c (retry_later backoff_defaults c e w)
  = sleeps_of c w ++ [current_sleep_time c w].
Proof.
  unfold sleeps_of, retry_later. simpl.
  rewrite filter_app, map_app. simpl. rewrite Wrapped_eqb_refl. reflexivity.
Qed.

Lemma retry_later_sleeps_other (c c' : Wrapped) (e : Exn) (w : World) :
  c <> c' -> sleeps_of c (retry_later backoff_defaults c' e w) = sleeps_of c w.
Proof.
  intros H. unfold sleeps_of, retry_later. simpl.
  rewrite filter_app, map_app. simpl.
  destruct (Wrapped_eqb_spec c' c) as [E|_]; [congruence|].
  simpl. apply app_nil_r.
Qed.

Lemma retry_later_failures (c : Wrapped) (e : Exn) (w : World) :
  failures_of c (retry_later backoff_defaults c e w) = failures_of c w ++ [e].
Proof.
  unfold failures_of, retry_later. simpl.
  rewrite filter_app, map_app. simpl. rewrite Wrapped_eqb_refl. reflexivity.
Qed.

Lemma retry_later_failures_other (c c' : Wrapped) (e : Exn) (w : World) :
  c <> c' -> failures_of c (retry_later backoff_defaults c' e w) = failures_of c w.
Proof.
  intros H. unfold failures_of, retry_later. simpl.
  rewrite filter_app, map_app. simpl.
  destruct (Wrapped_eqb_spec c' c) as [E|_]; [congruence|].
  simpl. apply app_nil_r.
Qed.

Lemma retry_later_urls_col (c : Wrapped) (e : Exn) (w : World) :
  urls_col (retry_later backoff_defaults c e w) = urls_col w.
Proof. reflexivity. Qed.

Lemma retry_later_network (c : Wrapped) (e : Exn) (w : World) :
  network (retry_later backoff_defaults c e w) = network w.
Proof. reflexivity. Qed.

Lemma delays_from_app (q : Q) (j k : nat) :
  delays_from q (j + k) = delays_from q j ++ delays_from (Nat.iter j grow q) k.
Proof.
  revert q. induction j as [|j IH]; intros q; simpl; [reflexivity|].
  rewrite IH. do 3 f_equal.
  clear. induction j as [|j IH]; simpl; [reflexivity|]. rewrite IH. reflexivity.
Qed.

Lemma iter_grow_succ (q : Q) (k : nat) :
  Nat.iter k grow (grow q) = Nat.iter (S k) grow q.
Proof. induction k as [|k IH]; simpl; [reflexivity|]. rewrite IH. reflexivity. Qed.

Lemma length_delays_from (q : Q) (k : nat) : List.length (delays_from q k) = k.
Proof. revert q. induction k as [|k IH]; intros q; simpl; auto. Qed.

(** ** A run of failed attempts *)

Section FailingOperation.

Variable cell : Wrapped.
Variable A : Type.
Variable func : M A.

Lemma failing_run (k fuel : nat) (w : World) :
  always_fails cell func ->
  (forall i, (i < k)%nat ->
     Qlt_bool (Nat.iter i grow (current_sleep_time cell w))
              (border_sleep_time backoff_defaults) = true) ->
  exists w',
    inner backoff_defaults cell func (k + fuel) w
    = inner backoff_defaults cell func fuel w'
    /\ current_sleep_time cell w' = Nat.iter k grow (current_sleep_time cell w)
    /\ sleeps_of cell w'
       = sleeps_of cell w ++ delays_from (current_sleep_time cell w) k
    /\ List.length (failures_of cell w')
       = (List.length (failures_of cell w) + k)%nat.
Proof.
  intros Hf. revert w. induction k as [|k IH]; intros w Hlive.
  - exists w. simpl. rewrite app_nil_r, Nat.add_0_r. auto.
  - destruct (Hf w) as (e & w1 & E & U & Hd & Hs & Hl).
    assert (live cell w) as L by (apply (Hlive 0%nat); lia).
    destruct (IH (retry_later backoff_defaults cell e w1)) as (w' & E' & Hd' & Hs' & Hl').
    { intros i Hi. rewrite retry_later_delay, Hd, iter_grow_succ.
      apply Hlive. lia. }
    exists w'. split; [|split; [|split]].
    + change (S k + fuel)%nat with (S (k + fuel)).
      rewrite (@inner_failed_attempt cell A func (k + fuel) w w1 e L E U).
      exact E'.
    + rewrite Hd', retry_later_delay, Hd. apply iter_grow_succ.
    + rewrite Hs', retry_later_sleeps, retry_later_delay, Hs, Hd.
      rewrite <- app_assoc. reflexivity.
    + rewrite Hl', retry_later_failures, length_app, Hl. simpl. lia.
Qed.

End FailingOperation.

(** C6. An operation that fails on every attempt with an unclassified
    failure is run seven times by a wrapper whose delay is at its start
    value 0.1: the wrapper sleeps 0.1, 0.2, 0.4, 0.8, 1.6, 3.2 and 6.4, the
    delay then stands at 12.8, past the border 10, and the generic 500
    response is returned. Seven rounds of fuel are enough: the loop ends. *)
Theorem backoff_gives_up_after_seven_attempts
    (cell : Wrapped) (A : Type) (func : M A) (fuel : nat) (w : World) :
  always_fails cell func ->
  current_sleep_time cell w = start_sleep_time backoff_defaults ->
  (7 <= fuel)%nat ->
  exists w',
    inner backoff_defaults cell func fuel w
    = (Return (inr internal_error_response), w')
    /\ sleeps_of cell w'
       = sleeps_of cell w
         ++ [(1 # 10)%Q; (1 # 5)%Q; (2 # 5)%Q; (4 # 5)%Q; (8 # 5)%Q;
             (16 # 5)%Q; (32 # 5)%Q]
    /\ List.length (failures_of cell w')
       = (List.length (failures_of cell w) + 7)%nat
    /\ current_sleep_time cell w' = (64 # 5)%Q.
Proof.
  intros Hf Hstart Hfuel.
  destruct (@failing_run cell A func 7 (fuel - 7) w Hf) as (w' & E & Hd & Hs & Hl).
  { intros i Hi. rewrite Hstart.
    do 7 (destruct i as [|i]; [reflexivity|]). lia. }
  replace (7 + (fuel - 7))%nat with fuel in E by lia.
  rewrite Hstart in Hd, Hs.
  exists w'. split; [|split; [|split]]; auto.
  rewrite E. apply inner_exhausted. unfold exhausted. rewrite Hd. reflexivity.
Qed.

Lemma backoff_gives_up_after_seven_attempts_witness :
  exists w',
    inner backoff_defaults W_get_long_url unreachable_storage 7
          (start_world [] [] (fun _ => 0%nat))
    = (Return (inr internal_error_response), w')
    /\ sleeps_of W_get_long_url w'
       = sleeps_of W_get_long_url (start_world [] [] (fun _ => 0%nat))
         ++ [(1 # 10)%Q; (1 # 5)%Q; (2 # 5)%Q; (4 # 5)%Q; (8 # 5)%Q;
             (16 # 5)%Q; (32 # 5)%Q]
    /\ List.length (failures_of W_get_long_url w')
       = (List.length (failures_of W_get_long_url
                         (start_world [] [] (fun _ => 0%nat))) + 7)%nat
    /\ current_sleep_time W_get_long_url w' = (64 # 5)%Q.
Proof.
  apply (@backoff_gives_up_after_seven_attempts
           W_get_long_url Response unreachable_storage 7
           (start_world [] [] (fun _ => 0%nat))).
  - intros w0. exists ConnectionFailure, w0. repeat split; reflexivity.
  - reflexivity.
  - lia.
Defined.

(** ** The delay of a wrapper across requests *)

Lemma grown_by_refl (c : Wrapped) (w : World) : grown_by c w w.
Proof. exists 0%nat. simpl. rewrite app_nil_r, Nat.add_0_r. auto. Qed.

Lemma grown_by_untouched (c : Wrapped) (w w' : World) :
  delays w' = delays w -> slept w' = slept w -> logged w' = logged w ->
  grown_by c w w'.
Proof.
  intros D S L. exists 0%nat. unfold current_sleep_time, sleeps_of, failures_of.
  rewrite D, S, L. simpl. rewrite app_nil_r, Nat.add_0_r. auto.
Qed.

Lemma grown_by_trans (c : Wrapped) (w1 w2 w3 : World) :
  grown_by c w1 w2 -> grown_by c w2 w3 -> grown_by c w1 w3.
Proof.
  intros (k1 & D1 & S1 & F1) (k2 & D2 & S2 & F2).
  exists (k1 + k2)%nat. split; [|split].
  - rewrite D2, D1, (Nat.add_comm k1 k2). symmetry. apply Nat.iter_add.
  - rewrite S2, S1, D1, delays_from_app, app_assoc. reflexivity.
  - rewrite F2, F1. lia.
Qed.

Lemma grown_by_retry (c c' : Wrapped) (e : Exn) (w : World) :
  grown_by c w (retry_later backoff_defaults c' e w).
Proof.
  destruct (Wrapped_eqb_spec c c') as [<-|N].
  - exists 1%nat. simpl. split; [|split].
    + apply retry_later_delay.
    + apply retry_later_sleeps.
    + rewrite retry_later_failures, length_app. reflexivity.
  - exists 0%nat. simpl. rewrite app_nil_r, Nat.add_0_r. split; [|split].
    + apply retry_later_delay_other, N.
    + apply retry_later_sleeps_other, N.
    + rewrite retry_later_failures_other by exact N. reflexivity.
Qed.

Lemma grown_by_serve (c : Wrapped) any_url_error (app : URLShortenerApp)
    (fuel : nat) (requests : list (Endpoint * Request)) (w : World) :
  grown_by c w (snd (serve any_url_error app fuel requests w)).
Proof.
  apply preserves_serve.
  - apply grown_by_refl.
  - apply grown_by_trans.
  - intros w0 rest. apply grown_by_untouched; reflexivity.
  - intros w0 n. apply grown_by_untouched; reflexivity.
  - intros w0 col _. apply grown_by_untouched; reflexivity.
  - intros c' e w0. apply grown_by_retry.
Qed.

Lemma grow_double (q : Q) : (grow q == q * 2)%Q.
Proof. unfold grow. rewrite Qred_correct. reflexivity. Qed.

Lemma iter_grow_power (q : Q) (k : nat) :
  (Nat.iter k grow q == q * inject_Z (2 ^ Z.of_nat k))%Q.
Proof.
  induction k as [|k IH].
  - simpl. change (inject_Z (2 ^ 0)) with 1%Q. rewrite Qmult_1_r. reflexivity.
  - change (Nat.iter (S k) grow q) with (grow (Nat.iter k grow q)).
    rewrite grow_double, IH, Nat2Z.inj_succ, Z.pow_succ_r by lia.
    rewrite (Z.mul_comm 2), inject_Z_mult.
    change (inject_Z 2) with 2%Q. rewrite Qmult_assoc. reflexivity.
Qed.

Lemma power_of_two_ge_1 (k : nat) : (1 <= inject_Z (2 ^ Z.of_nat k))%Q.
Proof.
  change 1%Q with (inject_Z 1). rewrite <- Zle_Qle.
  assert (0 < 2 ^ Z.of_nat k)%Z by (apply Z.pow_pos_nonneg; lia). lia.
Qed.

Lemma grown_by_exhausted (c : Wrapped) (w w' : World) :
  grown_by c w w' -> exhausted c w -> exhausted c w'.
Proof.
  intros (k & D & _ & _). unfold exhausted. rewrite !Qlt_bool_false.
  rewrite D. intros H. rewrite iter_grow_power.
  set (q := current_sleep_time c w) in *.
  set (b := border_sleep_time backoff_defaults) in *.
  assert (0 <= q)%Q as Hq.
  { eapply Qle_trans; [|exact H]. unfold b. simpl. discriminate. }
  eapply Qle_trans; [exact H|].
  pose proof (Qmult_le_compat_r _ _ q (power_of_two_ge_1 k) Hq) as M.
  rewrite Qmult_1_l, Qmult_comm in M. exact M.
Qed.

(** C4. The delay of a wrapper lives in the world, not in the call: over
    any sequence of requests the variable of wrapper [c] is never set back;
    it ends at its old value times [2 ^ k], where [k] counts the failed
    attempts of that wrapper in all the calls served, and the next call
    starts from there. Once the variable has reached the border it stays
    there, and every later call of the wrapped operation returns the
    generic 500 response in an unchanged world: the operation is not run. *)
Theorem current_sleep_time_is_shared_across_calls
    (any_url_error : Json -> option string) (app : URLShortenerApp)
    (fuel : nat) (requests : list (Endpoint * Request)) (w : World)
    (c : Wrapped) :
  let w' := snd (serve any_url_error app fuel requests w) in
  (exists k,
      List.length (failures_of c w') = (List.length (failures_of c w) + k)%nat
      /\ sleeps_of c w' = sleeps_of c w ++ delays_from (current_sleep_time c w) k
      /\ (current_sleep_time c w'
          == current_sleep_time c w * inject_Z (2 ^ Z.of_nat k))%Q)
  /\ (exhausted c w ->
      (forall (A : Type) (func : M A) (fuel' : nat),
          inner backoff_defaults c func fuel' w'
          = (Return (inr internal_error_response), w'))
      /\ (forall ep request fuel',
             cell_of ep = Some c ->
             handle any_url_error app fuel' ep request w'
             = (Return internal_error_response, w'))).
Proof.
  intros w'.
  pose proof (grown_by_serve c any_url_error app fuel requests w) as G.
  fold w' in G. split.
  - destruct G as (k & D & S & F). exists k. split; [|split]; auto.
    rewrite D. apply iter_grow_power.
  - intros X. pose proof (grown_by_exhausted G X) as X'. split.
    + intros A func fuel'. apply inner_exhausted, X'.
    + intros ep request fuel' Hc.
      destruct ep; simpl in Hc; inversion Hc; subst c; simpl;
        apply backoff_handler_exhausted, X'.
Qed.

Lemma current_sleep_time_is_shared_across_calls_witness :
  exhausted W_get_long_url world_after_outage
  /\ let w' := snd (serve sample_any_url_error test_app 7
                      [(GetVisitCount, get "abc12"); (GetLongURL, get "abc12")]
                      world_after_outage) in
     handle sample_any_url_error test_app 7 GetLongURL (get "abc12") w'
     = (Return internal_error_response, w').
Proof.
  split; [reflexivity|].
  apply (proj2 (current_sleep_time_is_shared_across_calls
                  sample_any_url_error test_app 7
                  [(GetVisitCount, get "abc12"); (GetLongURL, get "abc12")]
                  world_after_outage W_get_long_url)).
  - reflexivity.
  - reflexivity.
Defined.

(** ** What a wrapped call can return *)

Lemma inner_result {A} (c : Wrapped) (func : M A) (fuel : nat) (w w' : World)
    (r : A + Response) :
  inner backoff_defaults c func fuel w = (Return r, w') ->
  (exists a w0, r = inl a /\ func w0 = (Return a, w'))
  \/ r = inr invalid_json_response
  \/ (exists errors, r = inr (validation_response errors))
  \/ r = inr internal_error_response.
Proof.
  revert w. induction fuel as [|fuel IH]; intros w; rewrite inner_unfold.
  - destruct (Qlt_bool _ _); intros E; inversion E; subst; auto.
  - destruct (Qlt_bool _ _); [|intros E; inversion E; subst; auto].
    destruct (func w) as [[a|e|] w1] eqn:F.
    + intros E; inversion E; subst. left. eauto.
    + destruct e; try apply IH.
      * intros E; inversion E; subst; auto.
      * intros E; inversion E; subst. right. right. left. eauto.
    + discriminate.
Qed.

Lemma storage_call_cannot_encode (w : World) (r : Response) (w' : World) :
  storage_call (fun col => (@Raise Response InvalidDocument, col)) w
  <> (Return r, w').
Proof.
  unfold storage_call. destruct (network w) as [|[| |short long] rest];
    simpl; discriminate.
Qed.

Lemma create_mapping_returns (app : URLShortenerApp)
    (fuel : nat) (url : string) (w w' : World) (r : Response) :
  create_mapping app fuel url w = (Return r, w') ->
  exists path, r = short_url_response app path.
Proof.
  unfold create_mapping, bind.
  destruct (_generate_unique_short_url_path app fuel w) as [[[path|resp]|e|] w1];
    try discriminate.
  - destruct (insert_url_mapping path url w1) as [[[]|e|] w2]; try discriminate.
    unfold ret. intros E; inversion E; subst. eauto.
  - intros E. exfalso. exact (storage_call_cannot_encode _ E).
Qed.

(** ** Validation of the request body *)

Section Validation.

Variable any_url_error : Json -> option string.

(** What is assumed of [AnyUrl]: it accepts nothing but a non-empty
    string. *)
Hypothesis any_url_accepts_strings :
  forall v, any_url_error v = None -> exists s, v = JStr s /\ s <> EmptyString.

Lemma validated_long_url (data : Json) (w w1 : World) :
  GenerateShortURLInput any_url_error data w = (Return tt, w1) ->
  exists members s,
    data = JObj members /\ dict_get members "long_url" = JStr s
    /\ s <> EmptyString /\ w1 = w.
Proof.
  unfold GenerateShortURLInput.
  destruct data; try discriminate.
  destruct (dict_has members "long_url"); [|discriminate].
  destruct (any_url_error (dict_get members "long_url")) eqn:E; [discriminate|].
  intros H; inversion H; subst.
  apply any_url_accepts_strings in E as (s & Es & Hs).
  exists members, s. auto.
Qed.

Lemma truthy_nonempty (s : string) : s <> EmptyString -> truthy (JStr s) = true.
Proof.
  intros H. simpl. destruct (String.eqb_spec s EmptyString); [contradiction|].
  reflexivity.
Qed.

Lemma body_never_not_specified (app : URLShortenerApp) (fuel : nat)
    (request : Request) (w : World) :
  fst (generate_short_url_body any_url_error app fuel request w)
  <> Return long_url_not_specified.
Proof.
  unfold generate_short_url_body, bind, request_json.
  destruct (json_body request) as [data|]; simpl; [|discriminate].
  destruct (GenerateShortURLInput any_url_error data w) as [[[]|e|] w1] eqn:V;
    simpl; try discriminate.
  apply validated_long_url in V as (members & s & -> & G & Hs & ->).
  simpl. rewrite G, (truthy_nonempty Hs). simpl.
  destruct (find_short_url_path_by_long_url s w) as [[[path|]|e|] w1];
    simpl; try discriminate.
  - destruct (truthy_str path); simpl; [discriminate|].
    destruct (create_mapping app fuel s w1) as [[r|e|] w2] eqn:C;
      simpl; try discriminate.
    apply create_mapping_returns in C as (p & ->). discriminate.
  - destruct (create_mapping app fuel s w1) as [[r|e|] w2] eqn:C;
      simpl; try discriminate.
    apply create_mapping_returns in C as (p & ->). discriminate.
Qed.

(** C10. In [generate_short_url] the branch that answers
    "long_url parameter was not specified" is dead. Whatever the body of
    the request: either the lines before the test raise (the body does
    not parse, it is no mapping, or the model rejects it), or
    [data.get('long_url')] is a non-empty string, which is truthy. So
    neither the handler nor its decorated form ever returns that
    response. *)
Theorem long_url_not_specified_is_unreachable (app : URLShortenerApp)
    (fuel : nat) (request : Request) (w : World) :
  ((exists e, bind (request_json request)
                   (GenerateShortURLInput any_url_error) w = (Raise e, w))
   \/ (exists members s,
          json_body request = Some (JObj members)
          /\ dict_get members "long_url" = JStr s /\ s <> EmptyString
          /\ truthy (JStr s) = true))
  /\ fst (generate_short_url_body any_url_error app fuel request w)
     <> Return long_url_not_specified
  /\ fst (generate_short_url any_url_error app fuel request w)
     <> Return long_url_not_specified.
Proof.
  split; [|split].
  - unfold bind, request_json.
    destruct (json_body request) as [data|]; simpl; [|left; eauto].
    destruct (GenerateShortURLInput any_url_error data w) as [[[]|e|] w1] eqn:V.
    + apply validated_long_url in V as (members & s & -> & G & Hs & ->).
      right. exists members, s. repeat split; auto.
      apply truthy_nonempty, Hs.
    + left. exists e. f_equal.
      revert V. unfold GenerateShortURLInput, raise, ret.
      destruct data; try (intros V; inversion V; reflexivity).
      destruct (dict_has _ _); [|intros V; inversion V; reflexivity].
      destruct (any_url_error _); intros V; inversion V; reflexivity.
    + exfalso. revert V. unfold GenerateShortURLInput, raise, ret.
      destruct data; try discriminate.
      destruct (dict_has _ _); [|discriminate].
      destruct (any_url_error _); discriminate.
  - apply body_never_not_specified.
  - unfold generate_short_url, backoff_handler, bind.
    destruct (inner backoff_defaults W_generate_short_url
                (generate_short_url_body any_url_error app fuel request)
                fuel w) as [[r|e|] w1] eqn:I; simpl; try discriminate.
    apply inner_result in I
      as [(a & w0 & -> & F) | [-> | [(errors & ->) | ->]]];
      try discriminate.
    intros E. apply (body_never_not_specified app fuel request w0).
    rewrite F. exact E.
Qed.

(** C9, amended. A body whose [long_url] the model rejects (the empty
    string is always rejected) never reaches the storage: whatever the
    state of the wrapper, the world after the call is the world before
    it, so no record is created. While the wrapper's delay is below the
    border the answer is the 400 response that carries the validation
    error of the field; once the delay has reached the border the answer
    is the generic 500 response. *)
Theorem invalid_long_url_is_rejected (app : URLShortenerApp) (fuel : nat)
    (request : Request) (members : list (string * Json)) (url : string)
    (w : World) :
  json_body request = Some (JObj members) ->
  dict_get members "long_url" = JStr url ->
  url = EmptyString \/ any_url_error (JStr url) <> None ->
  exists m,
    any_url_error (JStr url) = Some m
    /\ snd (generate_short_url any_url_error app fuel request w) = w
    /\ (live W_generate_short_url w ->
        generate_short_url any_url_error app (S fuel) request w
        = (Return
             {| body :=
                  JsonBody
                    (JObj [("errors"%string,
                            JArr [JObj [("field"%string, JStr "long_url");
                                        ("message"%string, JStr m)]])]);
                status := 400 |}, w))
    /\ (exhausted W_generate_short_url w ->
        generate_short_url any_url_error app fuel request w
        = (Return {| body := Text "An internal server error occurred.";
                     status := 500 |}, w)).
Proof.
  intros B G Hbad.
  assert (exists m, any_url_error (JStr url) = Some m) as (m & Em).
  { destruct (any_url_error (JStr url)) as [m|] eqn:E; [eauto|].
    exfalso. destruct Hbad as [->|N]; [|congruence].
    apply any_url_accepts_strings in E as (s & Es & Hs).
    inversion Es; subst. congruence. }
  assert (dict_has members "long_url" = true) as Hhas.
  { clear - G. induction members as [|[k v] rest IH]; simpl in *; [discriminate|].
    destruct (k =? "long_url")%string; auto. }
  assert (forall w0, generate_short_url_body any_url_error app fuel request w0
                     = (Raise (ValidationError
                                 [{| loc := ["long_url"%string]; msg := m |}]), w0)) as Hbody.
  { intros w0. unfold generate_short_url_body, bind, request_json.
    rewrite B. simpl. rewrite Hhas, G, Em. reflexivity. }
  assert (forall w0, generate_short_url_body any_url_error app (S fuel) request w0
                     = (Raise (ValidationError
                                 [{| loc := ["long_url"%string]; msg := m |}]), w0)) as Hbody'.
  { intros w0. unfold generate_short_url_body, bind, request_json.
    rewrite B. simpl. rewrite Hhas, G, Em. reflexivity. }
  exists m. split; [exact Em|]. split; [|split].
  - unfold generate_short_url, backoff_handler, bind.
    rewrite inner_unfold.
    destruct (Qlt_bool _ _); [|reflexivity].
    destruct fuel as [|fuel']; [reflexivity|].
    rewrite Hbody. reflexivity.
  - intros L.
    unfold generate_short_url, backoff_handler, bind.
    rewrite (@inner_validation_error W_generate_short_url Response _ fuel w w
               _ L (Hbody' w)).
    reflexivity.
  - intros X. apply backoff_handler_exhausted, X.
Qed.

End Validation.

Lemma sample_any_url_error_accepts_strings (v : Json) :
  sample_any_url_error v = None -> exists s, v = JStr s /\ s <> EmptyString.
Proof.
  destruct v; simpl; try discriminate.
  destruct s as [|a s]; simpl; [discriminate|].
  intros _. eexists. split; [reflexivity|discriminate].
Qed.

Lemma long_url_not_specified_is_unreachable_witness :
  fst (generate_short_url sample_any_url_error test_app 7
         {| json_body := Some (JObj [("long_url"%string, JNull)]);
            match_info := EmptyString |}
         (start_world [] [] (fun _ => 0%nat)))
  <> Return long_url_not_specified.
Proof.
  apply (@long_url_not_specified_is_unreachable
           sample_any_url_error sample_any_url_error_accepts_strings test_app 7
           {| json_body := Some (JObj [("long_url"%string, JNull)]);
              match_info := EmptyString |}
           (start_world [] [] (fun _ => 0%nat))).
Defined.

(** C9, as stated, fails. One POST whose body is an array makes every
    attempt of the handler raise [TypeError], and the wrapper of
    [generate_short_url] gives up. The POST with an empty [long_url] that
    follows is answered with the 500 response, not with the 400 response
    and its validation errors. *)
Lemma invalid_long_url_gets_500_after_outage :
  let r := serve sample_any_url_error test_app 7
             [(GenerateShortURL, post_array);
              (GenerateShortURL, post EmptyString)]
             (start_world [] [] (fun _ => 0%nat)) in
  fst r = [Return internal_error_response; Return internal_error_response]
  /\ status internal_error_response = 500%Z
  /\ failures_of W_generate_short_url (snd r) = repeat TypeError 7
  /\ urls_col (snd r) = [].
Proof. repeat split. Qed.

Lemma invalid_long_url_is_rejected_witness :
  exists m,
    sample_any_url_error (JStr "not a url") = Some m
    /\ snd (generate_short_url sample_any_url_error test_app 7
              (post "not a url") (start_world [] [] (fun _ => 0%nat)))
       = start_world [] [] (fun _ => 0%nat)
    /\ (live W_generate_short_url (start_world [] [] (fun _ => 0%nat)) ->
        generate_short_url sample_any_url_error test_app 8
          (post "not a url") (start_world [] [] (fun _ => 0%nat))
        = (Return
             {| body :=
                  JsonBody
                    (JObj [("errors"%string,
                            JArr [JObj [("field"%string, JStr "long_url");
                                        ("message"%string, JStr m)]])]);
                status := 400 |},
           start_world [] [] (fun _ => 0%nat)))
    /\ (exhausted W_generate_short_url (start_world [] [] (fun _ => 0%nat)) ->
        generate_short_url sample_any_url_error test_app 7
          (post "not a url") (start_world [] [] (fun _ => 0%nat))
        = (Return {| body := Text "An internal server error occurred.";
                     status := 500 |},
           start_world [] [] (fun _ => 0%nat))).
Proof.
  apply (@invalid_long_url_is_rejected
           sample_any_url_error sample_any_url_error_accepts_strings
           test_app 7 (post "not a url")
           [("long_url"%string, JStr "not a url")] "not a url"
           (start_world [] [] (fun _ => 0%nat))).
  - reflexivity.
  - reflexivity.
  - right. simpl. discriminate.
Defined.

(** ** Storage calls *)

Lemma storage_call_quiet {A} (op : list Doc -> Outcome A * list Doc) (w : World) :
  network w = [] ->
  storage_call op w
  = (fst (op (urls_col w)), set_urls_col (snd (op (urls_col w))) w).
Proof.
  intros N. unfold storage_call. rewrite N.
  destruct (op (urls_col w)); reflexivity.
Qed.

Lemma find_quiet {A} (find_key : Doc -> string) (value : string)
    (selected_key : Doc -> A) (w : World) :
  network w = [] ->
  _find_one_by_key_value find_key value selected_key w
  = (Return (option_map selected_key
               (find (fun d => (find_key d =? value)%string) (urls_col w))), w).
Proof.
  intros N. unfold _find_one_by_key_value.
  rewrite storage_call_quiet by exact N. simpl.
  rewrite set_urls_col_same. reflexivity.
Qed.

Lemma storage_call_unavailable {A} (op : list Doc -> Outcome A * list Doc)
    (w : World) (rest : list StorageEvent) :
  network w = Unavailable :: rest ->
  storage_call op w = (Raise ConnectionFailure, set_network rest w).
Proof. intros N. unfold storage_call. rewrite N. reflexivity. Qed.

(** A storage call that raises, raises what the operation raised or finds
    the server unreachable. *)
Lemma increment_raises (path : string) (w w' : World) (e : Exn) :
  increment_short_url_path_counter path w = (Raise e, w') ->
  e = ConnectionFailure.
Proof.
  unfold increment_short_url_path_counter, storage_call.
  destruct (network w) as [|[| |short long] rest]; simpl;
    intros E; inversion E; reflexivity.
Qed.

(** ** GetVisitCount *)

Lemma get_short_url_visits_quiet (fuel : nat) (request : Request) (w : World) :
  network w = [] -> live W_get_short_url_visits w ->
  match_info request <> EmptyString ->
  get_short_url_visits (S fuel) request w
  = (Return (web_json_response
               (visits_json (visits_of (urls_col w) (match_info request))) 200),
     w).
Proof.
  intros N L P.
  assert (get_short_url_visits_body request w
          = (Return (web_json_response
                       (visits_json (visits_of (urls_col w) (match_info request)))
                       200), w)) as B.
  { unfold get_short_url_visits_body, truthy_str.
    destruct (String.eqb_spec (match_info request) EmptyString); [contradiction|].
    simpl. unfold bind, find_short_url_path_visits.
    rewrite find_quiet by exact N. reflexivity. }
  unfold get_short_url_visits, backoff_handler, bind.
  rewrite (@inner_returned W_get_short_url_visits Response _ fuel w w _ L B).
  reflexivity.
Qed.

(** C5. [get_short_url_visits] has no test for an unknown path: on a
    collection that never held the path ["zzzzz"] the lookup gives [None]
    and the handler answers 200 with the body [{"visits": null}], where
    [get_long_url] and [redirect_to_original_url] answer 400. *)
Theorem get_short_url_visits_of_unknown_path :
  get_short_url_visits 7 (get "zzzzz") (start_world [] [] (fun _ => 0%nat))
  = (Return (web_json_response (JObj [("visits"%string, JNull)]) 200),
     start_world [] [] (fun _ => 0%nat))
  /\ get_long_url 7 (get "zzzzz") (start_world [] [] (fun _ => 0%nat))
     = (Return (web_Response "long url doesn't exist" 400),
        start_world [] [] (fun _ => 0%nat))
  /\ redirect_to_original_url (get "zzzzz") (start_world [] [] (fun _ => 0%nat))
     = (Return (web_Response "urls were not found" 400),
        start_world [] [] (fun _ => 0%nat)).
Proof. repeat split. Qed.

(** ** ResolveAndRedirect *)

(** C2, as stated, fails: the path is stored, the lookup is served, the
    increment finds the server unreachable, and the caller gets that
    exception instead of the redirect. *)
Lemma failed_increment_blocks_the_redirect :
  let w := start_world [stored_abc12 0] [Served; Unavailable] (fun _ => 0%nat) in
  fst (redirect_to_original_url (get "abc12") w) = Raise ConnectionFailure
  /\ fst (redirect_to_original_url (get "abc12") w)
     <> Raise (HTTPFound "https://example.com/a")
  /\ urls_col (snd (redirect_to_original_url (get "abc12") w)) = [stored_abc12 0].
Proof. repeat split. discriminate. Qed.

(** A run that ends in the redirect is a lookup that found the URL and an
    increment that returned. *)
Lemma redirect_found_run (request : Request) (w w' : World) (url : string) :
  redirect_to_original_url request w = (Raise (HTTPFound url), w') ->
  exists w1,
    find_long_url_by_short_url_path (match_info request) w
    = (Return (Some url), w1)
    /\ increment_short_url_path_counter (match_info request) w1
       = (Return tt, w').
Proof.
  unfold redirect_to_original_url.
  destruct (negb (truthy_str (match_info request))); [discriminate|].
  unfold bind.
  destruct (find_long_url_by_short_url_path (match_info request) w)
    as [[[found|]|e|] w1] eqn:F; try discriminate.
  - destruct (truthy_str found); [|discriminate].
    destruct (increment_short_url_path_counter (match_info request) w1)
      as [[[]|e|] w2] eqn:I.
    + unfold raise. intros E; inversion E; subst. eauto.
    + intros E; inversion E; subst.
      apply increment_raises in I. discriminate.
    + discriminate.
  - intros E; inversion E; subst.
    revert F. unfold find_long_url_by_short_url_path, _find_one_by_key_value,
      storage_call.
    destruct (network w) as [|[| |short long] rest]; simpl; discriminate.
Qed.

(** C2, amended. The redirect is raised only after the increment has
    returned: a run that ends in [HTTPFound url] is a lookup that found
    [url] followed by an increment that returned. The redirect is not
    guarded against the increment: when the increment raises, what it
    raised reaches the caller and no redirect is issued; when it returns,
    whatever it updated, the redirect is raised. *)
Theorem redirect_follows_the_increment (request : Request) (w : World) :
  (forall url w',
      redirect_to_original_url request w = (Raise (HTTPFound url), w') ->
      exists w1,
        find_long_url_by_short_url_path (match_info request) w
        = (Return (Some url), w1)
        /\ increment_short_url_path_counter (match_info request) w1
           = (Return tt, w'))
  /\ (forall url w1 e w2,
         match_info request <> EmptyString ->
         find_long_url_by_short_url_path (match_info request) w
         = (Return (Some url), w1) ->
         url <> EmptyString ->
         increment_short_url_path_counter (match_info request) w1
         = (Raise e, w2) ->
         redirect_to_original_url request w = (Raise e, w2)
         /\ e = ConnectionFailure)
  /\ (forall url w1 w2,
         match_info request <> EmptyString ->
         find_long_url_by_short_url_path (match_info request) w
         = (Return (Some url), w1) ->
         url <> EmptyString ->
         increment_short_url_path_counter (match_info request) w1
         = (Return tt, w2) ->
         redirect_to_original_url request w = (Raise (HTTPFound url), w2)).
Proof.
  split; [|split].
  - intros url w'. apply redirect_found_run.
  - intros url w1 e w2 P F U I. split; [|exact (increment_raises _ _ I)].
    unfold redirect_to_original_url, truthy_str.
    destruct (String.eqb_spec (match_info request) EmptyString); [contradiction|].
    simpl. unfold bind. rewrite F.
    destruct (String.eqb_spec url EmptyString); [contradiction|].
    simpl. rewrite I. reflexivity.
  - intros url w1 w2 P F U I.
    unfold redirect_to_original_url, truthy_str.
    destruct (String.eqb_spec (match_info request) EmptyString); [contradiction|].
    simpl. unfold bind. rewrite F.
    destruct (String.eqb_spec url EmptyString); [contradiction|].
    simpl. rewrite I. reflexivity.
Qed.

Lemma redirect_follows_the_increment_witness :
  redirect_to_original_url (get "abc12")
    (start_world [stored_abc12 0] [Served; Unavailable] (fun _ => 0%nat))
  = (Raise ConnectionFailure,
     start_world [stored_abc12 0] [] (fun _ => 0%nat))
  /\ ConnectionFailure = ConnectionFailure.
Proof.
  apply (proj1 (proj2 (redirect_follows_the_increment (get "abc12")
                         (start_world [stored_abc12 0] [Served; Unavailable]
                                      (fun _ => 0%nat))))
           "https://example.com/a"%string
           (start_world [stored_abc12 0] [Unavailable] (fun _ => 0%nat))).
  - discriminate.
  - reflexivity.
  - discriminate.
  - reflexivity.
Defined.

(** ** Which endpoints the wrapper governs *)

Lemma handle_wrapped any_url_error (app : URLShortenerApp) (fuel : nat)
    (ep : Endpoint) (request : Request) (c : Wrapped) :
  cell_of ep = Some c ->
  handle any_url_error app fuel ep request
  = backoff_handler c (body_of any_url_error app fuel ep request) fuel.
Proof. destruct ep; simpl; intros E; inversion E; reflexivity. Qed.

(** C3, as stated, fails for ResolveAndRedirect: the storage is
    unreachable at the lookup, the handler has no wrapper, so nothing is
    slept, nothing is logged, nothing is tried again, and the exception
    itself is what the caller gets. *)
Lemma redirect_is_not_retried :
  let w := start_world [stored_abc12 0] [Unavailable] (fun _ => 0%nat) in
  cell_of ResolveAndRedirect = None
  /\ handle sample_any_url_error test_app 7 ResolveAndRedirect (get "abc12") w
     = (Raise ConnectionFailure,
        start_world [stored_abc12 0] [] (fun _ => 0%nat))
  /\ slept (snd (handle sample_any_url_error test_app 7 ResolveAndRedirect
                   (get "abc12") w)) = [].
Proof. repeat split. Qed.

(** C3, amended. The wrapper governs the three decorated endpoints,
    GenerateShortURL, GetLongURL and GetVisitCount. There an unclassified
    failure of the operation is logged, the wrapper sleeps the current
    delay, multiplies it and runs the operation again; once the delay has
    reached the border the answer is the generic 500 response; and no
    exception ever reaches the caller. ResolveAndRedirect is not
    decorated: a lookup that finds the storage unreachable raises to the
    caller at once. *)
Theorem backoff_governs_the_decorated_endpoints
    (any_url_error : Json -> option string) (app : URLShortenerApp)
    (fuel : nat) (request : Request) (w : World) :
  (forall ep c,
      cell_of ep = Some c ->
      (forall e, fst (handle any_url_error app fuel ep request w) <> Raise e)
      /\ (exhausted c w ->
          handle any_url_error app fuel ep request w
          = (Return internal_error_response, w))
      /\ (forall n e w1,
             live c w ->
             body_of any_url_error app fuel ep request w = (Raise e, w1) ->
             unclassified e = true ->
             backoff_handler c (body_of any_url_error app fuel ep request) (S n) w
             = backoff_handler c (body_of any_url_error app fuel ep request) n
                 (retry_later backoff_defaults c e w1)
             /\ sleeps_of c (retry_later backoff_defaults c e w1)
                = sleeps_of c w1 ++ [current_sleep_time c w1]
             /\ (current_sleep_time c (retry_later backoff_defaults c e w1)
                 == current_sleep_time c w1 * 2)%Q))
  /\ (forall rest,
         match_info request <> EmptyString ->
         network w = Unavailable :: rest ->
         handle any_url_error app fuel ResolveAndRedirect request w
         = (Raise ConnectionFailure, set_network rest w)).
Proof.
  split.
  - intros ep c Hc. rewrite (handle_wrapped any_url_error app fuel ep request Hc).
    split; [|split].
    + intros e. apply backoff_handler_never_raises.
    + apply backoff_handler_exhausted.
    + intros n e w1 L B U. split; [|split].
      * apply backoff_handler_retry; assumption.
      * apply retry_later_sleeps.
      * rewrite retry_later_delay. apply grow_double.
  - intros rest P N. simpl. unfold redirect_to_original_url, truthy_str.
    destruct (String.eqb_spec (match_info request) EmptyString); [contradiction|].
    simpl. unfold bind, find_long_url_by_short_url_path, _find_one_by_key_value.
    rewrite (storage_call_unavailable _ _ N). reflexivity.
Qed.

Lemma backoff_governs_the_decorated_endpoints_witness :
  let w := start_world [stored_abc12 0] [Unavailable] (fun _ => 0%nat) in
  let w1 := start_world [stored_abc12 0] [] (fun _ => 0%nat) in
  (backoff_handler W_get_long_url
     (body_of sample_any_url_error test_app 7 GetLongURL (get "abc12")) 7 w
   = backoff_handler W_get_long_url
       (body_of sample_any_url_error test_app 7 GetLongURL (get "abc12")) 6
       (retry_later backoff_defaults W_get_long_url ConnectionFailure w1)
   /\ sleeps_of W_get_long_url
        (retry_later backoff_defaults W_get_long_url ConnectionFailure w1)
      = sleeps_of W_get_long_url w1 ++ [current_sleep_time W_get_long_url w1]
   /\ (current_sleep_time W_get_long_url
         (retry_later backoff_defaults W_get_long_url ConnectionFailure w1)
       == current_sleep_time W_get_long_url w1 * 2)%Q)
  /\ handle sample_any_url_error test_app 7 ResolveAndRedirect (get "abc12") w
     = (Raise ConnectionFailure, set_network [] w).
Proof.
  intros w w1.
  pose proof (backoff_governs_the_decorated_endpoints
                sample_any_url_error test_app 7 (get "abc12") w) as [H1 H2].
  split.
  - destruct (H1 GetLongURL W_get_long_url eq_refl) as (_ & _ & H).
    apply (H 6%nat ConnectionFailure w1); reflexivity.
  - apply (H2 []); [discriminate | reflexivity].
Defined.

(** ** A raced insert *)

(** C1, as stated, fails. Each of seven attempts loses the race for its
    fresh path. Every [DuplicateKeyError] is caught by the wrapper of
    [generate_short_url], none by the wrapper of the path generator, and
    after the seventh the caller is answered with the 500 response and the
    long URL has no mapping. *)
Lemma duplicate_key_surfaces_as_internal_error :
  let w := start_world [] seven_lost_races rnd_by_fives in
  let r := generate_short_url sample_any_url_error test_app 7
             (post "https://example.com/a") w in
  fst r = Return internal_error_response
  /\ failures_of W_generate_short_url (snd r) = repeat DuplicateKeyError 7
  /\ failures_of W_generate_unique_short_url_path (snd r) = []
  /\ mappings_of (urls_col (snd r)) "https://example.com/a" = 0%nat.
Proof. repeat split. Qed.

(** C1, amended. A [DuplicateKeyError] of the insert is not handled
    inside unique-path generation: it leaves [create_mapping], and with it
    the body of the handler. The wrapper of [generate_short_url] treats
    it as any unclassified failure: it logs it, sleeps the current delay,
    multiplies the delay and runs the whole handler again. The exception
    itself never reaches the caller, who is answered by a later attempt,
    or with the generic 500 response once the delay is at the border. *)
Theorem duplicate_key_is_retried_by_the_handler
    (any_url_error : Json -> option string) (app : URLShortenerApp)
    (fuel : nat) (request : Request) (w : World) :
  (forall e,
      fst (generate_short_url any_url_error app fuel request w) <> Raise e)
  /\ (forall url path w1 w2,
         _generate_unique_short_url_path app fuel w = (Return (inl path), w1) ->
         insert_url_mapping path url w1 = (Raise DuplicateKeyError, w2) ->
         create_mapping app fuel url w = (Raise DuplicateKeyError, w2))
  /\ (forall n w1,
         live W_generate_short_url w ->
         generate_short_url_body any_url_error app fuel request w
         = (Raise DuplicateKeyError, w1) ->
         backoff_handler W_generate_short_url
           (generate_short_url_body any_url_error app fuel request) (S n) w
         = backoff_handler W_generate_short_url
             (generate_short_url_body any_url_error app fuel request) n
             (retry_later backoff_defaults W_generate_short_url
                          DuplicateKeyError w1))
  /\ (exhausted W_generate_short_url w ->
      generate_short_url any_url_error app fuel request w
      = (Return internal_error_response, w)).
Proof.
  split; [|split; [|split]].
  - intros e. apply backoff_handler_never_raises.
  - intros url path w1 w2 G I. unfold create_mapping, bind.
    rewrite G, I. reflexivity.
  - intros n w1 L B. apply backoff_handler_retry; auto.
  - apply backoff_handler_exhausted.
Qed.

(** One lost race from the start: the second attempt draws "bbbbb" and
    the caller is answered with it. *)
Lemma duplicate_key_is_retried_by_the_handler_witness :
  let w := start_world [] (lost_race "aaaaa" "https://other.example/0")
                       rnd_by_fives in
  let body := generate_short_url_body sample_any_url_error test_app 7
                (post "https://example.com/a") in
  backoff_handler W_generate_short_url body 7 w
  = backoff_handler W_generate_short_url body 6
      (retry_later backoff_defaults W_generate_short_url DuplicateKeyError
                   (snd (body w)))
  /\ fst (backoff_handler W_generate_short_url body 7 w)
     = Return (short_url_response test_app "bbbbb").
Proof.
  intros w body. split; [|reflexivity].
  apply (duplicate_key_is_retried_by_the_handler
           sample_any_url_error test_app 7 (post "https://example.com/a") w).
  - reflexivity.
  - reflexivity.
Defined.

(** ** The visit counter *)

Lemma visits_of_app (col more : list Doc) (path : string) (n : Z) :
  visits_of col path = Some n -> visits_of (col ++ more) path = Some n.
Proof.
  unfold visits_of. induction col as [|d col IH]; simpl; [discriminate|].
  destruct (short_url_path d =? path)%string; auto.
Qed.

Lemma insert_one_cases (d : Doc) (col : list Doc) :
  (fst (insert_one d col) = Raise DuplicateKeyError /\ snd (insert_one d col) = col)
  \/ (fst (insert_one d col) = Return tt /\ snd (insert_one d col) = col ++ [d]
      /\ existsb (fun x => (short_url_path x =? short_url_path d)%string
                           || (long_url x =? long_url d)%string) col = false).
Proof.
  unfold insert_one. destruct (existsb _ col); simpl; auto.
Qed.

Lemma raced_insert_cases (short long : string) (col : list Doc) :
  raced_insert short long col = col
  \/ raced_insert short long col
     = col ++ [{| short_url_path := short; long_url := long; visits := 0 |}].
Proof.
  unfold raced_insert.
  destruct (insert_one_cases
              {| short_url_path := short; long_url := long; visits := 0 |} col)
    as [[_ ->]|[_ [-> _]]]; auto.
Qed.

Lemma visits_of_raced_insert (short long path : string) (col : list Doc) (n : Z) :
  visits_of col path = Some n ->
  visits_of (raced_insert short long col) path = Some n.
Proof.
  intros H. destruct (raced_insert_cases short long col) as [->| ->]; auto.
  apply visits_of_app, H.
Qed.

Lemma existsb_orb_false {X} (f g : X -> bool) (l : list X) :
  existsb (fun x => f x || g x) l = false ->
  existsb f l = false /\ existsb g l = false.
Proof.
  induction l as [|x l IH]; simpl; [auto|].
  intros H. apply orb_false_elim in H as [Hx Hl].
  apply orb_false_elim in Hx as [Hf Hg].
  destruct (IH Hl) as [-> ->]. rewrite Hf, Hg. auto.
Qed.

Lemma visits_of_absent (col : list Doc) (path : string) :
  existsb (fun x => (short_url_path x =? path)%string) col = false ->
  forall d, short_url_path d = path ->
  visits_of (col ++ [d]) path = Some (visits d).
Proof.
  intros H d Hd. unfold visits_of. induction col as [|x col IH]; simpl in *.
  - rewrite Hd, String.eqb_refl. reflexivity.
  - apply orb_false_elim in H as [Hx Hc]. rewrite Hx. auto.
Qed.

Lemma visits_of_update_one (col : list Doc) (target path : string) :
  visits_of (update_one (fun d => (short_url_path d =? target)%string)
                        inc_visits col) path
  = if (path =? target)%string
    then option_map (fun n => n + 1)%Z (visits_of col path)
    else visits_of col path.
Proof.
  unfold visits_of. induction col as [|d col IH]; simpl.
  - destruct (path =? target)%string; reflexivity.
  - destruct (String.eqb_spec (short_url_path d) target) as [T|T]; simpl.
    + destruct (String.eqb_spec (short_url_path d) path) as [P|P].
      * assert (path = target) as -> by congruence.
        rewrite String.eqb_refl. reflexivity.
      * destruct (String.eqb_spec path target) as [E|E]; [congruence|].
        reflexivity.
    + destruct (String.eqb_spec (short_url_path d) path) as [P|P].
      * destruct (String.eqb_spec path target) as [E|E]; [congruence|].
        reflexivity.
      * exact IH.
Qed.

Lemma visits_kept_step (w : World) (col : list Doc) :
  col_step (urls_col w) col -> visits_kept w (set_urls_col col w).
Proof.
  intros S path n H. simpl. inversion S; subst.
  - exists n. split; [congruence | lia].
  - destruct (insert_one_cases d (urls_col w)) as [[_ ->]|[_ [-> _]]].
    + exists n. split; [exact H | lia].
    + exists n. split; [apply visits_of_app, H | lia].
  - rewrite visits_of_update_one, H.
    destruct (path =? path0)%string; simpl.
    + exists (n + 1)%Z. split; [reflexivity | lia].
    + exists n. split; [reflexivity | lia].
Qed.

Lemma visits_kept_serve any_url_error (app : URLShortenerApp) (fuel : nat)
    (requests : list (Endpoint * Request)) (w : World) :
  visits_kept w (snd (serve any_url_error app fuel requests w)).
Proof.
  apply preserves_serve.
  - intros w0 path n H. exists n. split; [exact H | lia].
  - intros w1 w2 w3 H12 H23 path n H.
    destruct (H12 path n H) as (n2 & H2 & L2).
    destruct (H23 path n2 H2) as (n3 & H3 & L3).
    exists n3. split; [exact H3 | lia].
  - intros w0 rest path n H. exists n. split; [exact H | lia].
  - intros w0 k path n H. exists n. split; [exact H | lia].
  - apply visits_kept_step.
  - intros c e w0 path n H. exists n. split; [exact H | lia].
Qed.

Lemma insert_url_mapping_visits (path url : string) (w w' : World) :
  insert_url_mapping path url w = (Return tt, w') ->
  visits_of (urls_col w') path = Some 0%Z.
Proof.
  set (d := {| short_url_path := path; long_url := url; visits := 0 |}).
  assert (forall col o col', insert_one d col = (o, col') -> o = Return tt ->
                             visits_of col' path = Some 0%Z) as Hins.
  { intros col o col' E ->.
    destruct (insert_one_cases d col) as [[F _]|[_ [S X]]];
      rewrite E in *; simpl in *; [discriminate|]. subst col'.
    apply existsb_orb_false in X as [X _].
    apply (@visits_of_absent col path X d eq_refl). }
  unfold insert_url_mapping, storage_call. fold d.
  destruct (network w) as [|[| |short long] rest].
  - destruct (insert_one d (urls_col w)) as [o col] eqn:E.
    intros H; inversion H; subst. simpl. eapply Hins; eauto.
  - destruct (insert_one d (urls_col w)) as [o col] eqn:E.
    intros H; inversion H; subst. simpl. eapply Hins; eauto.
  - discriminate.
  - destruct (insert_one d (raced_insert short long (urls_col w))) as [o col] eqn:E.
    intros H; inversion H; subst. simpl. eapply Hins; eauto.
Qed.

Lemma find_keeps_visits {A} (find_key : Doc -> string) (value : string)
    (selected_key : Doc -> A) (w w1 : World) (o : Outcome (option A))
    (path : string) (n : Z) :
  _find_one_by_key_value find_key value selected_key w = (o, w1) ->
  visits_of (urls_col w) path = Some n ->
  visits_of (urls_col w1) path = Some n.
Proof.
  unfold _find_one_by_key_value, storage_call.
  destruct (network w) as [|[| |short long] rest]; simpl;
    intros E V; inversion E; subst; simpl; auto.
  apply visits_of_raced_insert, V.
Qed.

Lemma increment_adds_one (path : string) (w w' : World) (n : Z) :
  increment_short_url_path_counter path w = (Return tt, w') ->
  visits_of (urls_col w) path = Some n ->
  visits_of (urls_col w') path = Some (n + 1)%Z.
Proof.
  unfold increment_short_url_path_counter, storage_call.
  destruct (network w) as [|[| |short long] rest]; simpl;
    intros E V; inversion E; subst; simpl;
    rewrite visits_of_update_one, String.eqb_refl.
  - rewrite V. reflexivity.
  - rewrite V. reflexivity.
  - rewrite (visits_of_raced_insert short long _ _ V). reflexivity.
Qed.

(** C8. The counter of a mapping is 0 once [insert_url_mapping] has
    returned; a call of [redirect_to_original_url] that ends in the
    redirect leaves the counter of its path exactly one higher; and over
    any sequence of requests, whatever the schedule of the storage, a
    counter that stands at [n] stands at [n] or more afterwards. *)
Theorem visits_counter_is_monotone
    (any_url_error : Json -> option string) (app : URLShortenerApp)
    (fuel : nat) :
  (forall path url w w',
      insert_url_mapping path url w = (Return tt, w') ->
      visits_of (urls_col w') path = Some 0%Z)
  /\ (forall request w w' url n,
         redirect_to_original_url request w = (Raise (HTTPFound url), w') ->
         visits_of (urls_col w) (match_info request) = Some n ->
         visits_of (urls_col w') (match_info request) = Some (n + 1)%Z)
  /\ (forall requests w path n,
         visits_of (urls_col w) path = Some n ->
         exists n',
           visits_of (urls_col (snd (serve any_url_error app fuel requests w)))
                     path = Some n'
           /\ (n <= n')%Z).
Proof.
  split; [|split].
  - apply insert_url_mapping_visits.
  - intros request w w' url n H V.
    apply redirect_found_run in H as (w1 & F & I).
    eapply increment_adds_one; [exact I|].
    eapply find_keeps_visits; [exact F | exact V].
  - intros requests w path n V.
    apply (visits_kept_serve any_url_error app fuel requests w). exact V.
Qed.

Lemma visits_counter_is_monotone_witness :
  visits_of
    (urls_col
       (snd (insert_url_mapping "abc12" "https://example.com/a"
               (start_world [] [] (fun _ => 0%nat))))) "abc12" = Some 0%Z
  /\ visits_of
       (urls_col
          (snd (redirect_to_original_url (get "abc12")
                  (start_world [stored_abc12 4] [] (fun _ => 0%nat)))))
       (match_info (get "abc12")) = Some (4 + 1)%Z
  /\ exists n',
       visits_of
         (urls_col
            (snd (serve sample_any_url_error test_app 7
                    [(ResolveAndRedirect, get "abc12");
                     (GetVisitCount, get "abc12");
                     (ResolveAndRedirect, get "abc12")]
                    (start_world [stored_abc12 4] [] (fun _ => 0%nat)))))
         "abc12" = Some n'
       /\ (4 <= n')%Z.
Proof.
  pose proof (visits_counter_is_monotone sample_any_url_error test_app 7)
    as (H1 & H2 & H3).
  split; [|split].
  - apply (H1 "abc12"%string "https://example.com/a"%string
              (start_world [] [] (fun _ => 0%nat))). reflexivity.
  - apply (H2 (get "abc12") (start_world [stored_abc12 4] [] (fun _ => 0%nat))
              _ "https://example.com/a"%string); reflexivity.
  - apply H3. reflexivity.
Defined.

(** ** Drawing a fresh path *)

Lemma set_random_pos_same (w : World) : set_random_pos (random_pos w) w = w.
Proof. destruct w; reflexivity. Qed.

Lemma random_string_spec (n : nat) (w : World) :
  random_string n w
  = (Return (draw_string (random_src w) (random_pos w) n),
     set_random_pos (random_pos w + n) w).
Proof.
  revert w. induction n as [|n IH]; intros w.
  - simpl. unfold ret. rewrite Nat.add_0_r, set_random_pos_same. reflexivity.
  - cbn [random_string draw_string]. unfold bind at 1.
    unfold random_choice at 1. unfold bind.
    rewrite IH. unfold ret. cbn [random_src random_pos set_random_pos].
    rewrite Nat.add_succ_r. reflexivity.
Qed.

Lemma length_draw_string (rnd : nat -> nat) (pos n : nat) :
  String.length (draw_string rnd pos n) = n.
Proof. revert pos. induction n as [|n IH]; intros pos; simpl; auto. Qed.

Lemma is_short_url_path_exist_quiet (path : string) (w : World) :
  network w = [] ->
  is_short_url_path_exist path w = (Return (path_taken (urls_col w) path), w).
Proof.
  intros N. unfold is_short_url_path_exist, bind.
  rewrite find_quiet by exact N. reflexivity.
Qed.

Lemma unique_path_loop_finds (app : URLShortenerApp) (fuel : nat) (w : World) :
  network w = [] ->
  (exists k, (k < fuel)%nat
             /\ path_taken (urls_col w) (candidate app w k) = false) ->
  exists path pos,
    unique_path_loop app fuel w = (Return path, set_random_pos pos w)
    /\ path_taken (urls_col w) path = false
    /\ String.length path = Z.to_nat (_link_length app).
Proof.
  revert w. induction fuel as [|fuel IH]; intros w N (k & Hk & Hfree); [lia|].
  cbn [unique_path_loop]. unfold bind at 1. unfold _generate_short_url_path.
  rewrite random_string_spec.
  set (len := Z.to_nat (_link_length app)) in *.
  set (p0 := draw_string (random_src w) (random_pos w) len).
  set (w1 := set_random_pos (random_pos w + len) w).
  unfold bind at 1.
  rewrite (@is_short_url_path_exist_quiet p0 w1 N).
  change (urls_col w1) with (urls_col w).
  destruct (path_taken (urls_col w) p0) eqn:T; simpl.
  - destruct k as [|k].
    { exfalso. unfold candidate in Hfree. fold len in Hfree.
      rewrite Nat.mul_0_l, Nat.add_0_r in Hfree. fold p0 in Hfree. congruence. }
    destruct (IH w1 N) as (path & pos & E & F & L).
    { exists k. split; [lia|].
      unfold candidate in *. fold len in Hfree |- *.
      change (random_src w1) with (random_src w).
      change (random_pos w1) with (random_pos w + len)%nat.
      change (urls_col w1) with (urls_col w).
      replace (random_pos w + len + k * len)%nat
        with (random_pos w + S k * len)%nat by lia.
      exact Hfree. }
    exists path, pos. split; [exact E | split; [exact F | exact L]].
  - exists p0, (random_pos w + len)%nat. split; [reflexivity|].
    split; [exact T | apply length_draw_string].
Qed.

(** ** The unique indexes *)

Lemma find_none_existsb {X} (f : X -> bool) (l : list X) :
  find f l = None -> existsb f l = false.
Proof.
  induction l as [|x l IH]; simpl; [reflexivity|].
  destruct (f x); [discriminate | exact IH].
Qed.

Lemma existsb_orb_intro {X} (f g : X -> bool) (l : list X) :
  existsb f l = false -> existsb g l = false ->
  existsb (fun x => f x || g x) l = false.
Proof.
  induction l as [|x l IH]; simpl; [reflexivity|].
  intros Hf Hg. apply orb_false_elim in Hf as [Hf Hf'].
  apply orb_false_elim in Hg as [Hg Hg'].
  rewrite Hf, Hg. simpl. auto.
Qed.

Lemma existsb_false_not_in (key : Doc -> string) (v : string) (col : list Doc) :
  existsb (fun x => (key x =? v)%string) col = false -> ~ In v (map key col).
Proof.
  induction col as [|d col IH]; simpl; [tauto|].
  intros H. apply orb_false_elim in H as [Hd Hc].
  intros [E|I]; [|exact (IH Hc I)].
  rewrite E, String.eqb_refl in Hd. discriminate.
Qed.

Lemma NoDup_snoc {X} (l : list X) (x : X) :
  NoDup l -> ~ In x l -> NoDup (l ++ [x]).
Proof.
  intros Hl Hx. apply NoDup_app; [exact Hl | repeat constructor; simpl; tauto |].
  intros a Ha [<-|[]]. exact (Hx Ha).
Qed.

Lemma map_update_one_inc (key : Doc -> string) (flt : Doc -> bool)
    (col : list Doc) :
  (forall d, key (inc_visits d) = key d) ->
  map key (update_one flt inc_visits col) = map key col.
Proof.
  intros K. induction col as [|d col IH]; simpl; [reflexivity|].
  destruct (flt d); simpl; [rewrite K | rewrite IH]; reflexivity.
Qed.

Lemma indexes_ok_step (col col' : list Doc) :
  col_step col col' -> indexes_ok col -> indexes_ok col'.
Proof.
  intros S [Hp Hl]. inversion S; subst.
  - split; assumption.
  - destruct (insert_one_cases d col) as [[_ ->]|[_ [-> X]]];
      [split; assumption|].
    apply existsb_orb_false in X as [Xp Xl].
    unfold indexes_ok. rewrite !map_app. simpl. split.
    + apply NoDup_snoc; [exact Hp | exact (existsb_false_not_in _ _ _ Xp)].
    + apply NoDup_snoc; [exact Hl | exact (existsb_false_not_in _ _ _ Xl)].
  - unfold indexes_ok.
    rewrite !map_update_one_inc by (intros d; reflexivity).
    split; assumption.
Qed.

Lemma indexes_kept_serve any_url_error (app : URLShortenerApp) (fuel : nat)
    (requests : list (Endpoint * Request)) (w : World) :
  indexes_ok (urls_col w) ->
  indexes_ok (urls_col (snd (serve any_url_error app fuel requests w))).
Proof.
  apply (@preserves_serve
           (fun w0 w1 => indexes_ok (urls_col w0) -> indexes_ok (urls_col w1)));
    auto.
  intros w0 col S. simpl. apply indexes_ok_step, S.
Qed.




Lemma find_app_none {X} (f : X -> bool) (l : list X) (x : X) :
  find f l = None -> f x = true -> find f (l ++ [x]) = Some x.
Proof.
  induction l as [|y l IH]; simpl; intros N T.
  - rewrite T. reflexivity.
  - destruct (f y); [discriminate | auto].
Qed.

Lemma path_not_taken (col : list Doc) (path : string) :
  path <> EmptyString -> path_taken col path = false ->
  find (fun d => (short_url_path d =? path)%string) col = None.
Proof.
  unfold path_taken. intros P T.
  destruct (find _ col) as [d|] eqn:F; [|reflexivity].
  apply find_some in F as [_ E]. apply String.eqb_eq in E.
  simpl in T. rewrite E in T. unfold truthy_str in T.
  destruct (String.eqb_spec path EmptyString); [contradiction | discriminate].
Qed.

Lemma dict_get_has (members : list (string * Json)) (key s : string) :
  dict_get members key = JStr s -> dict_has members key = true.
Proof.
  induction members as [|[k v] rest IH]; simpl; [discriminate|].
  destruct (k =? key)%string; auto.
Qed.

(** ** GenerateShortURL twice *)

Lemma inner_returned_pos {A} (c : Wrapped) (func : M A) (fuel : nat)
    (w w1 : World) (a : A) :
  (0 < fuel)%nat -> live c w -> func w = (Return a, w1) ->
  inner backoff_defaults c func fuel w = (Return (inl a), w1).
Proof.
  intros Hf L E. destruct fuel as [|f]; [lia|].
  apply inner_returned; assumption.
Qed.

Section Idempotence.

Variable any_url_error : Json -> option string.

Hypothesis any_url_accepts_strings :
  forall v, any_url_error v = None -> exists s, v = JStr s /\ s <> EmptyString.

Variable app : URLShortenerApp.
Variable fuel : nat.
Variable request : Request.
Variable members : list (string * Json).
Variable url : string.

Hypothesis body_is_object : json_body request = Some (JObj members).
Hypothesis long_url_is_url : dict_get members "long_url" = JStr url.
Hypothesis url_is_valid : any_url_error (JStr url) = None.

Let body := generate_short_url_body any_url_error app fuel request.

Lemma body_after_validation (w : World) :
  body w
  = bind (find_short_url_path_by_long_url url)
         (fun found =>
            match found with
            | Some path =>
                if truthy_str path then ret (short_url_response app path)
                else create_mapping app fuel url
            | None => create_mapping app fuel url
            end) w.
Proof.
  unfold body, generate_short_url_body, request_json.
  rewrite body_is_object. unfold bind at 1. unfold ret at 1.
  unfold bind at 1. simpl GenerateShortURLInput.
  rewrite (dict_get_has _ _ long_url_is_url), long_url_is_url, url_is_valid.
  unfold ret at 1. unfold bind at 1. simpl py_get.
  rewrite long_url_is_url. unfold ret at 1.
  destruct (any_url_accepts_strings url_is_valid) as (s & Es & Hs).
  inversion Es; subst s. rewrite (truthy_nonempty Hs). reflexivity.
Qed.

Lemma body_found (w : World) (d : Doc) :
  network w = [] ->
  find (fun x => (long_url x =? url)%string) (urls_col w) = Some d ->
  short_url_path d <> EmptyString ->
  body w = (Return (short_url_response app (short_url_path d)), w).
Proof.
  intros N F P. rewrite body_after_validation. unfold bind.
  unfold find_short_url_path_by_long_url. rewrite find_quiet by exact N.
  rewrite F. simpl. unfold truthy_str.
  destruct (String.eqb_spec (short_url_path d) EmptyString); [contradiction|].
  reflexivity.
Qed.

Lemma body_created (w : World) :
  network w = [] ->
  find (fun x => (long_url x =? url)%string) (urls_col w) = None ->
  live W_generate_unique_short_url_path w ->
  (0 < _link_length app)%Z ->
  (exists k, (k < fuel)%nat
             /\ path_taken (urls_col w) (candidate app w k) = false) ->
  exists path pos,
    body w
    = (Return (short_url_response app path),
       set_urls_col
         (urls_col w
          ++ [{| short_url_path := path; long_url := url; visits := 0 |}])
         (set_random_pos pos w))
    /\ path <> EmptyString.
Proof.
  intros N F L Hlen Hfree.
  destruct (@unique_path_loop_finds app fuel w N Hfree) as (path & pos & U & T & Len).
  assert (path <> EmptyString) as P.
  { intros ->. simpl in Len. lia. }
  exists path, pos. split; [|exact P].
  rewrite body_after_validation. unfold bind at 1.
  unfold find_short_url_path_by_long_url. rewrite find_quiet by exact N.
  rewrite F. cbn [option_map].
  unfold create_mapping, bind, _generate_unique_short_url_path.
  assert (0 < fuel)%nat as Hpos by (destruct Hfree as (k & Hk & _); lia).
  rewrite (@inner_returned_pos string W_generate_unique_short_url_path _ fuel w
             (set_random_pos pos w) path Hpos L U).
  unfold insert_url_mapping.
  rewrite storage_call_quiet by exact N.
  change (urls_col (set_random_pos pos w)) with (urls_col w).
  unfold insert_one. simpl short_url_path. simpl long_url.
  rewrite existsb_orb_intro.
  - reflexivity.
  - apply find_none_existsb, path_not_taken; assumption.
  - apply find_none_existsb, F.
Qed.


End Idempotence.



(** * Further properties of the code *)

(** ** The random path *)

Lemma allowed_characters_alnum (i : nat) :
  is_alnum (nth (Nat.modulo i (String.length allowed_characters))
                (list_ascii_of_string allowed_characters) "a"%char) = true.
Proof.
  assert (forallb is_alnum (list_ascii_of_string allowed_characters) = true)
    as H by reflexivity.
  rewrite forallb_forall in H. apply H, nth_In.
  change (List.length (list_ascii_of_string allowed_characters)) with 62%nat.
  change (String.length allowed_characters) with 62%nat.
  apply Nat.mod_upper_bound. discriminate.
Qed.

Lemma draw_string_alnum (rnd : nat -> nat) (pos n : nat) :
  forallb is_alnum (list_ascii_of_string (draw_string rnd pos n)) = true.
Proof.
  revert pos. induction n as [|n IH]; intros pos; [reflexivity|].
  cbn [draw_string list_ascii_of_string forallb].
  rewrite allowed_characters_alnum, IH. reflexivity.
Qed.

(** X1. [_generate_short_url_path] always returns: the path has
    [link_length] characters (none when the length is not positive), each
    a letter or a digit, and the call consumes one draw per character and
    touches nothing else. *)
Theorem generated_path_has_length_and_alphabet (app : URLShortenerApp)
    (w : World) :
  exists path,
    _generate_short_url_path app w
    = (Return path,
       set_random_pos (random_pos w + Z.to_nat (_link_length app)) w)
    /\ String.length path = Z.to_nat (_link_length app)
    /\ forallb is_alnum (list_ascii_of_string path) = true.
Proof.
  unfold _generate_short_url_path. rewrite random_string_spec.
  eexists. split; [reflexivity|]. split.
  - apply length_draw_string.
  - apply draw_string_alnum.
Qed.

(** ** The indexes at start-up *)

Lemma has_index_app (name : string) (a b : list Index) :
  has_index name (a ++ b) = has_index name a || has_index name b.
Proof. unfold has_index. apply existsb_app. Qed.

(** X2. [_create_indexes] is safe on every start-up: afterwards an index
    named [short_url_path_1] and one named [long_url_1] exist, the indexes
    that were there are kept in place, what is added is a unique index on
    the key of its name, and a second call changes nothing. *)
Theorem create_indexes_is_idempotent (indexes : list Index) :
  has_index "short_url_path_1" (_create_indexes indexes) = true
  /\ has_index "long_url_1" (_create_indexes indexes) = true
  /\ (exists added,
        _create_indexes indexes = indexes ++ added
        /\ Forall (fun i => index_unique i = true
                            /\ index_name i = (index_key i ++ "_1")%string
                            /\ (index_key i = "short_url_path"%string
                                \/ index_key i = "long_url"%string)) added)
  /\ _create_indexes (_create_indexes indexes) = _create_indexes indexes.
Proof.
  assert (forall l, has_index "short_url_path_1" l = true ->
                    has_index "long_url_1" l = true ->
                    _create_indexes l = l) as Hfix.
  { intros l H1 H2. unfold _create_indexes. rewrite H1, H2. reflexivity. }
  assert (has_index "short_url_path_1" (_create_indexes indexes) = true
          /\ has_index "long_url_1" (_create_indexes indexes) = true
          /\ exists added,
               _create_indexes indexes = indexes ++ added
               /\ Forall (fun i => index_unique i = true
                                   /\ index_name i = (index_key i ++ "_1")%string
                                   /\ (index_key i = "short_url_path"%string
                                       \/ index_key i = "long_url"%string)) added)
    as (H1 & H2 & H3).
  { unfold _create_indexes, create_index. simpl append.
    destruct (has_index "short_url_path_1" indexes) eqn:S;
      destruct (has_index "long_url_1" indexes) eqn:L; simpl negb; cbv iota;
      rewrite ?has_index_app, ?S, ?L; simpl;
      rewrite ?has_index_app, ?S, ?L; simpl; rewrite ?orb_true_r;
      (split; [reflexivity|]); (split; [reflexivity|]).
    - exists []. rewrite app_nil_r. split; [reflexivity | constructor].
    - eexists. split; [reflexivity|].
      constructor; [simpl; auto | constructor].
    - eexists. split; [reflexivity|].
      constructor; [simpl; auto | constructor].
    - rewrite <- app_assoc.
      eexists. split; [reflexivity|].
      constructor; [simpl; auto |]. constructor; [simpl; auto | constructor]. }
  repeat split; auto.
Qed.

(** ** The handlers of the GET routes *)

(** X3. An empty path is answered 400 by each of the three GET handlers
    before any storage access: whatever the schedule, the world after the
    call is the world before it. For the two decorated handlers this is so
    while their wrapper runs the operation at all. *)
Theorem empty_path_is_rejected_before_storage (fuel : nat) (request : Request)
    (w : World) :
  match_info request = EmptyString ->
  redirect_to_original_url request w = (Return path_not_provided, w)
  /\ (live W_get_long_url w ->
      get_long_url (S fuel) request w = (Return path_not_provided, w))
  /\ (live W_get_short_url_visits w ->
      get_short_url_visits (S fuel) request w = (Return path_not_provided, w))
  /\ status path_not_provided = 400%Z.
Proof.
  intros E. split; [|split; [|split]].
  - unfold redirect_to_original_url. rewrite E. reflexivity.
  - intros L. unfold get_long_url, backoff_handler, bind.
    rewrite (@inner_returned W_get_long_url Response (get_long_url_body request)
               fuel w w path_not_provided L).
    + reflexivity.
    + unfold get_long_url_body. rewrite E. reflexivity.
  - intros L. unfold get_short_url_visits, backoff_handler, bind.
    rewrite (@inner_returned W_get_short_url_visits Response
               (get_short_url_visits_body request) fuel w w path_not_provided L).
    + reflexivity.
    + unfold get_short_url_visits_body. rewrite E. reflexivity.
  - reflexivity.
Qed.

Lemma empty_path_is_rejected_before_storage_witness :
  let w := start_world [stored_abc12 0] [Unavailable] (fun _ => 0%nat) in
  redirect_to_original_url (get EmptyString) w = (Return path_not_provided, w)
  /\ (live W_get_long_url w ->
      get_long_url 7 (get EmptyString) w = (Return path_not_provided, w))
  /\ (live W_get_short_url_visits w ->
      get_short_url_visits 7 (get EmptyString) w = (Return path_not_provided, w))
  /\ status path_not_provided = 400%Z.
Proof.
  intros w.
  apply (empty_path_is_rejected_before_storage 6 (get EmptyString) w).
  reflexivity.
Defined.

(** X4. With a storage that serves and a live wrapper, [get_long_url]
    answers a stored path with its long URL and an unknown path with the
    400 response "long url doesn't exist"; in both cases the world, and so
    every counter, is as before. *)
Theorem get_long_url_resolves (fuel : nat) (request : Request) (w : World) :
  network w = [] ->
  live W_get_long_url w ->
  match_info request <> EmptyString ->
  (forall d,
      doc_of (urls_col w) (match_info request) = Some d ->
      long_url d <> EmptyString ->
      get_long_url (S fuel) request w
      = (Return (web_json_response
                   (JObj [("long_url"%string, JStr (long_url d))]) 200), w))
  /\ (doc_of (urls_col w) (match_info request) = None ->
      get_long_url (S fuel) request w
      = (Return (web_Response "long url doesn't exist" 400), w)).
Proof.
  intros N L P.
  assert (forall r,
             get_long_url_body request w = (Return r, w) ->
             get_long_url (S fuel) request w = (Return r, w)) as Hwrap.
  { intros r B. unfold get_long_url, backoff_handler, bind.
    rewrite (@inner_returned W_get_long_url Response (get_long_url_body request)
               fuel w w r L B). reflexivity. }
  assert (get_long_url_body request w
          = match option_map long_url (doc_of (urls_col w) (match_info request)) with
            | Some u =>
                if truthy_str u
                then (Return (web_json_response
                                (JObj [("long_url"%string, JStr u)]) 200), w)
                else (Return (web_Response "long url doesn't exist" 400), w)
            | None => (Return (web_Response "long url doesn't exist" 400), w)
            end) as B.
  { unfold get_long_url_body, truthy_str at 1.
    destruct (String.eqb_spec (match_info request) EmptyString); [contradiction|].
    cbn [negb]. unfold bind, find_long_url_by_short_url_path.
    rewrite find_quiet by exact N. unfold doc_of.
    destruct (option_map long_url _) as [u|]; [|reflexivity].
    destruct (truthy_str u); reflexivity. }
  split.
  - intros d F U. apply Hwrap. rewrite B, F. simpl. unfold truthy_str.
    destruct (String.eqb_spec (long_url d) EmptyString); [contradiction|].
    reflexivity.
  - intros F. apply Hwrap. rewrite B, F. reflexivity.
Qed.

Lemma get_long_url_resolves_witness :
  let w := start_world [stored_abc12 2] [] (fun _ => 0%nat) in
  get_long_url 7 (get "abc12") w
  = (Return (web_json_response
               (JObj [("long_url"%string, JStr (long_url (stored_abc12 2)))])
               200), w).
Proof.
  intros w.
  apply (proj1 (@get_long_url_resolves 6 (get "abc12") w
                  eq_refl eq_refl ltac:(discriminate)) (stored_abc12 2)).
  - reflexivity.
  - discriminate.
Defined.

(** X5. With a storage that serves, [redirect_to_original_url] answers a
    stored path by raising the redirect to its long URL, after adding one
    to the counter of that path and to nothing else; an unknown path is
    answered 400 and the collection is not written. *)
Theorem redirect_resolves (request : Request) (w : World) :
  network w = [] ->
  match_info request <> EmptyString ->
  (forall d,
      doc_of (urls_col w) (match_info request) = Some d ->
      long_url d <> EmptyString ->
      exists w',
        redirect_to_original_url request w = (Raise (HTTPFound (long_url d)), w')
        /\ doc_of (urls_col w') (match_info request) = Some (inc_visits d)
        /\ (forall other,
               other <> match_info request ->
               doc_of (urls_col w') other = doc_of (urls_col w) other)
        /\ map short_url_path (urls_col w') = map short_url_path (urls_col w)
        /\ map long_url (urls_col w') = map long_url (urls_col w))
  /\ (doc_of (urls_col w) (match_info request) = None ->
      redirect_to_original_url request w
      = (Return (web_Response "urls were not found" 400), w)).
Proof.
  intros N P.
  assert (redirect_to_original_url request w
          = (match option_map long_url
                     (doc_of (urls_col w) (match_info request)) with
             | Some u =>
                 if truthy_str u then
                   bind (increment_short_url_path_counter (match_info request))
                        (fun _ => raise (HTTPFound u))
                 else ret (web_Response "urls were not found" 400)
             | None => ret (web_Response "urls were not found" 400)
             end) w) as B.
  { unfold redirect_to_original_url, truthy_str at 1.
    destruct (String.eqb_spec (match_info request) EmptyString); [contradiction|].
    cbn [negb]. unfold bind at 1, find_long_url_by_short_url_path.
    rewrite find_quiet by exact N. reflexivity. }
  split.
  - intros d F U. rewrite B, F. cbn [option_map]. unfold truthy_str.
    destruct (String.eqb_spec (long_url d) EmptyString); [contradiction|].
    cbn [negb]. unfold bind, increment_short_url_path_counter.
    rewrite storage_call_quiet by exact N. simpl fst. simpl snd.
    eexists. split; [reflexivity|]. simpl urls_col.
    split; [|split; [|split]].
    + revert F. unfold doc_of. generalize (urls_col w) as col.
      induction col as [|x col IH]; simpl; [discriminate|].
      destruct (String.eqb_spec (short_url_path x) (match_info request)) as [E|E].
      * intros H; inversion H; subst. simpl. rewrite E, String.eqb_refl.
        reflexivity.
      * intros H. simpl.
        destruct (String.eqb_spec (short_url_path x) (match_info request));
          [contradiction | auto].
    + intros other O. unfold doc_of. generalize (urls_col w) as col.
      induction col as [|x col IH]; simpl; [reflexivity|].
      destruct (String.eqb_spec (short_url_path x) (match_info request)) as [E|E].
      * simpl. destruct (String.eqb_spec (short_url_path x) other); [congruence|].
        reflexivity.
      * simpl. destruct (short_url_path x =? other)%string; [reflexivity | exact IH].
    + apply map_update_one_inc. reflexivity.
    + apply map_update_one_inc. reflexivity.
  - intros F. rewrite B, F. reflexivity.
Qed.

Lemma redirect_resolves_witness :
  let w := start_world [stored_abc12 2] [] (fun _ => 0%nat) in
  exists w',
    redirect_to_original_url (get "abc12") w
    = (Raise (HTTPFound (long_url (stored_abc12 2))), w')
    /\ doc_of (urls_col w') (match_info (get "abc12"))
       = Some (inc_visits (stored_abc12 2))
    /\ (forall other,
           other <> match_info (get "abc12") ->
           doc_of (urls_col w') other = doc_of (urls_col w) other)
    /\ map short_url_path (urls_col w') = map short_url_path (urls_col w)
    /\ map long_url (urls_col w') = map long_url (urls_col w).
Proof.
  intros w.
  apply (proj1 (@redirect_resolves (get "abc12") w
                  eq_refl ltac:(discriminate)) (stored_abc12 2)).
  - reflexivity.
  - discriminate.
Defined.

(** ** The gateway *)

Lemma doc_of_app_some (col more : list Doc) (path : string) (d : Doc) :
  doc_of col path = Some d -> doc_of (col ++ more) path = Some d.
Proof.
  unfold doc_of. induction col as [|x col IH]; simpl; [discriminate|].
  destruct (short_url_path x =? path)%string; auto.
Qed.

Lemma existsb_find_none {X} (f : X -> bool) (l : list X) :
  existsb f l = false -> find f l = None.
Proof.
  induction l as [|x l IH]; simpl; [reflexivity|].
  destruct (f x); [discriminate | exact IH].
Qed.

(** X6. [is_short_url_path_exist] on a storage that serves: the answer is
    [True] exactly when the path is not empty and some document has it. An
    empty path is reported as absent even when a document is stored under
    it, because the stored path itself is what [bool] is applied to. *)
Theorem is_short_url_path_exist_spec (path : string) (w : World) :
  network w = [] ->
  exists b,
    is_short_url_path_exist path w = (Return b, w)
    /\ (b = true <->
        path <> EmptyString
        /\ exists d, In d (urls_col w) /\ short_url_path d = path)
    /\ (path = EmptyString -> b = false).
Proof.
  intros N. rewrite is_short_url_path_exist_quiet by exact N.
  eexists. split; [reflexivity|].
  unfold path_taken.
  destruct (find (fun d => (short_url_path d =? path)%string) (urls_col w))
    as [d|] eqn:F; simpl.
  - apply find_some in F as [I E]. apply String.eqb_eq in E.
    unfold truthy_str. rewrite E.
    destruct (String.eqb_spec path EmptyString) as [P|P]; simpl.
    + split; [|reflexivity]. split; [discriminate | tauto].
    + split; [|contradiction]. split; [eauto | reflexivity].
  - split; [|reflexivity]. split; [discriminate|].
    intros (_ & d & I & E).
    pose proof (find_none _ _ F d I) as H. simpl in H.
    rewrite E, String.eqb_refl in H. discriminate.
Qed.

Lemma is_short_url_path_exist_spec_witness :
  exists b,
    is_short_url_path_exist EmptyString
      (start_world [{| short_url_path := EmptyString;
                       long_url := "https://example.com/a"; visits := 0 |}]
                   [] (fun _ => 0%nat))
    = (Return b,
       start_world [{| short_url_path := EmptyString;
                       long_url := "https://example.com/a"; visits := 0 |}]
                   [] (fun _ => 0%nat))
    /\ b = false.
Proof.
  destruct (@is_short_url_path_exist_spec EmptyString
              (start_world [{| short_url_path := EmptyString;
                               long_url := "https://example.com/a";
                               visits := 0 |}]
                           [] (fun _ => 0%nat)) eq_refl)
    as (b & E & _ & Z).
  exists b. split; [exact E | exact (Z eq_refl)].
Defined.

(** X7. [insert_url_mapping] on a storage that serves: it raises
    [DuplicateKeyError], and leaves the world as it was, exactly when some
    document already has the short path or the long URL; otherwise it
    appends the document with counter 0, after which the path resolves to
    the long URL and, when the collection had its indexes, the long URL
    to the path. *)
Theorem insert_url_mapping_spec (path url : string) (w : World) :
  network w = [] ->
  let taken :=
    existsb (fun x => (short_url_path x =? path)%string
                      || (long_url x =? url)%string) (urls_col w) in
  let d := {| short_url_path := path; long_url := url; visits := 0 |} in
  (taken = true ->
   insert_url_mapping path url w = (Raise DuplicateKeyError, w))
  /\ (taken = false ->
      insert_url_mapping path url w
      = (Return tt, set_urls_col (urls_col w ++ [d]) w)
      /\ doc_of (urls_col w ++ [d]) path = Some d
      /\ doc_of_url (urls_col w ++ [d]) url = Some d
      /\ (indexes_ok (urls_col w) -> indexes_ok (urls_col w ++ [d]))).
Proof.
  intros N taken d. unfold insert_url_mapping.
  rewrite storage_call_quiet by exact N. unfold insert_one.
  cbn [short_url_path long_url]. fold taken. split.
  - intros T. rewrite T. simpl. rewrite set_urls_col_same. reflexivity.
  - intros T. rewrite T. simpl. split; [reflexivity|].
    apply existsb_orb_false in T as [Tp Tu].
    split; [|split].
    + apply find_app_none; [apply existsb_find_none, Tp | apply String.eqb_refl].
    + apply find_app_none; [apply existsb_find_none, Tu | apply String.eqb_refl].
    + intros [Hp Hu]. unfold indexes_ok. rewrite !map_app. simpl. split.
      * apply NoDup_snoc; [exact Hp | exact (existsb_false_not_in _ _ _ Tp)].
      * apply NoDup_snoc; [exact Hu | exact (existsb_false_not_in _ _ _ Tu)].
Qed.

Lemma insert_url_mapping_spec_witness :
  insert_url_mapping "zzzzz" "https://example.com/a"
    (start_world [stored_abc12 1] [] (fun _ => 0%nat))
  = (Raise DuplicateKeyError, start_world [stored_abc12 1] [] (fun _ => 0%nat)).
Proof.
  apply (proj1 (@insert_url_mapping_spec "zzzzz" "https://example.com/a"
                  (start_world [stored_abc12 1] [] (fun _ => 0%nat)) eq_refl)).
  reflexivity.
Defined.

Lemma update_one_no_match (flt : Doc -> bool) (upd : Doc -> Doc)
    (col : list Doc) :
  find flt col = None -> update_one flt upd col = col.
Proof.
  induction col as [|d col IH]; simpl; [reflexivity|].
  destruct (flt d); [discriminate|]. intros H. rewrite IH by exact H.
  reflexivity.
Qed.

(** X8. [increment_short_url_path_counter] on a storage that serves never
    raises, and for a path no document has it is a silent no-op: the
    world is unchanged. *)
Theorem increment_of_unknown_path_is_a_no_op (path : string) (w : World) :
  network w = [] ->
  doc_of (urls_col w) path = None ->
  increment_short_url_path_counter path w = (Return tt, w).
Proof.
  intros N F. unfold increment_short_url_path_counter.
  rewrite storage_call_quiet by exact N. simpl.
  rewrite update_one_no_match by exact F.
  rewrite set_urls_col_same. reflexivity.
Qed.

Lemma increment_of_unknown_path_is_a_no_op_witness :
  increment_short_url_path_counter "zzzzz"
    (start_world [stored_abc12 1] [] (fun _ => 0%nat))
  = (Return tt, start_world [stored_abc12 1] [] (fun _ => 0%nat)).
Proof.
  apply (@increment_of_unknown_path_is_a_no_op "zzzzz"
           (start_world [stored_abc12 1] [] (fun _ => 0%nat)));
    reflexivity.
Defined.

(** ** What no request undoes *)

Lemma doc_of_update_one (col : list Doc) (target path : string) :
  doc_of (update_one (fun d => (short_url_path d =? target)%string)
                     inc_visits col) path
  = if (path =? target)%string
    then option_map inc_visits (doc_of col path)
    else doc_of col path.
Proof.
  unfold doc_of. induction col as [|d col IH]; simpl.
  - destruct (path =? target)%string; reflexivity.
  - destruct (String.eqb_spec (short_url_path d) target) as [T|T]; simpl.
    + destruct (String.eqb_spec (short_url_path d) path) as [P|P].
      * assert (path = target) as -> by congruence.
        rewrite String.eqb_refl. reflexivity.
      * destruct (String.eqb_spec path target) as [E|E]; [congruence|].
        reflexivity.
    + destruct (String.eqb_spec (short_url_path d) path) as [P|P].
      * destruct (String.eqb_spec path target) as [E|E]; [congruence|].
        reflexivity.
      * exact IH.
Qed.

Lemma mappings_kept_refl (w : World) : mappings_kept w w.
Proof. intros path d F. exists d. repeat split; auto. lia. Qed.

Lemma mappings_kept_same_col (w w' : World) :
  urls_col w' = urls_col w -> mappings_kept w w'.
Proof. intros E path d F. exists d. rewrite E. repeat split; auto. lia. Qed.

Lemma mappings_kept_trans (w1 w2 w3 : World) :
  mappings_kept w1 w2 -> mappings_kept w2 w3 -> mappings_kept w1 w3.
Proof.
  intros H12 H23 path d F.
  destruct (H12 path d F) as (d2 & F2 & U2 & V2).
  destruct (H23 path d2 F2) as (d3 & F3 & U3 & V3).
  exists d3. repeat split; [exact F3 | congruence | lia].
Qed.

Lemma mappings_kept_step (w : World) (col : list Doc) :
  col_step (urls_col w) col -> mappings_kept w (set_urls_col col w).
Proof.
  intros S path d F. simpl. inversion S; subst.
  - exists d. repeat split; [congruence | lia].
  - exists d. split; [|split; [reflexivity | lia]].
    destruct (insert_one_cases d0 (urls_col w)) as [[_ ->]|[_ [-> _]]];
      [exact F | apply doc_of_app_some, F].
  - rewrite doc_of_update_one, F.
    destruct (path =? path0)%string; simpl.
    + exists (inc_visits d). repeat split. simpl. lia.
    + exists d. repeat split. lia.
Qed.

(** X9. A mapping is never rewritten and never removed: over any sequence
    of requests to the four endpoints, under any schedule of the storage
    and with any fuel, a path that resolved to a document still resolves
    to a document with the same long URL, and with a counter that is not
    lower. *)
Theorem mappings_are_immutable_but_for_visits
    (any_url_error : Json -> option string) (app : URLShortenerApp)
    (fuel : nat) (requests : list (Endpoint * Request)) (w : World)
    (path : string) (d : Doc) :
  doc_of (urls_col w) path = Some d ->
  exists d',
    doc_of (urls_col (snd (serve any_url_error app fuel requests w))) path
    = Some d'
    /\ long_url d' = long_url d /\ (visits d <= visits d')%Z.
Proof.
  revert path d. change (mappings_kept w (snd (serve any_url_error app fuel requests w))).
  apply preserves_serve.
  - apply mappings_kept_refl.
  - apply mappings_kept_trans.
  - intros w0 rest. apply mappings_kept_same_col. reflexivity.
  - intros w0 n. apply mappings_kept_same_col. reflexivity.
  - apply mappings_kept_step.
  - intros c e w0. apply mappings_kept_same_col. reflexivity.
Qed.

Lemma mappings_are_immutable_but_for_visits_witness :
  exists d',
    doc_of (urls_col
              (snd (serve sample_any_url_error test_app 7
                      [(GenerateShortURL, post "https://example.com/b");
                       (ResolveAndRedirect, get "abc12");
                       (GenerateShortURL, post "https://example.com/a")]
                      (start_world [stored_abc12 0]
                         [Served; RacedInsert "abc12" "https://evil.example/"]
                         (fun _ => 0%nat))))) "abc12"
    = Some d'
    /\ long_url d' = long_url (stored_abc12 0)
    /\ (visits (stored_abc12 0) <= visits d')%Z.
Proof.
  apply (@mappings_are_immutable_but_for_visits
           sample_any_url_error test_app 7
           [(GenerateShortURL, post "https://example.com/b");
            (ResolveAndRedirect, get "abc12");
            (GenerateShortURL, post "https://example.com/a")]
           (start_world [stored_abc12 0]
              [Served; RacedInsert "abc12" "https://evil.example/"]
              (fun _ => 0%nat)) "abc12" (stored_abc12 0)).
  reflexivity.
Defined.

(** ** The handlers that only read *)

Lemma docs_kept_refl (w : World) : docs_kept w w.
Proof. intros path d F. exact F. Qed.

Lemma docs_kept_trans (w1 w2 w3 : World) :
  docs_kept w1 w2 -> docs_kept w2 w3 -> docs_kept w1 w3.
Proof. intros H12 H23 path d F. apply H23, H12, F. Qed.

Lemma docs_kept_retry (c : Wrapped) (e : Exn) (w : World) :
  docs_kept w (retry_later backoff_defaults c e w).
Proof. intros path d F. exact F. Qed.

Lemma docs_kept_find {A} (find_key : Doc -> string) (value : string)
    (selected_key : Doc -> A) :
  preserves docs_kept (_find_one_by_key_value find_key value selected_key).
Proof.
  intros w path d F. unfold _find_one_by_key_value, storage_call.
  destruct (network w) as [|[| |short long] rest]; simpl; auto.
  destruct (raced_insert_cases short long (urls_col w)) as [->| ->];
    [exact F | apply doc_of_app_some, F].
Qed.

(** X10. [get_long_url] and [get_short_url_visits] only read: under any
    schedule, with any fuel and in any state of their wrappers, however
    often the wrapper retries, every document a path resolved to before
    the call is, unchanged, what the path resolves to after it; no counter
    moves. *)
Theorem reading_handlers_write_nothing (fuel : nat) (request : Request)
    (w : World) (path : string) (d : Doc) :
  doc_of (urls_col w) path = Some d ->
  doc_of (urls_col (snd (get_long_url fuel request w))) path = Some d
  /\ doc_of (urls_col (snd (get_short_url_visits fuel request w))) path = Some d.
Proof.
  intros F. split.
  - revert path d F.
    change (docs_kept w (snd (get_long_url fuel request w))).
    apply (preserves_backoff_handler docs_kept_refl docs_kept_trans docs_kept_retry).
    unfold get_long_url_body.
    destruct (negb (truthy_str _)); [apply (preserves_ret _ docs_kept_refl)|].
    apply (preserves_bind docs_kept_trans); [apply docs_kept_find|].
    intros [url|]; [|apply (preserves_ret _ docs_kept_refl)].
    destruct (truthy_str url); apply (preserves_ret _ docs_kept_refl).
  - revert path d F.
    change (docs_kept w (snd (get_short_url_visits fuel request w))).
    apply (preserves_backoff_handler docs_kept_refl docs_kept_trans docs_kept_retry).
    unfold get_short_url_visits_body.
    destruct (negb (truthy_str _)); [apply (preserves_ret _ docs_kept_refl)|].
    apply (preserves_bind docs_kept_trans); [apply docs_kept_find|].
    intros v. apply (preserves_ret _ docs_kept_refl).
Qed.

Lemma reading_handlers_write_nothing_witness :
  let w := start_world [stored_abc12 5]
             [Unavailable; RacedInsert "abc12" "https://evil.example/"]
             (fun _ => 0%nat) in
  doc_of (urls_col (snd (get_long_url 7 (get "abc12") w))) "abc12"
  = Some (stored_abc12 5)
  /\ doc_of (urls_col (snd (get_short_url_visits 7 (get "abc12") w))) "abc12"
     = Some (stored_abc12 5).
Proof.
  intros w.
  apply (@reading_handlers_write_nothing 7 (get "abc12") w "abc12"
           (stored_abc12 5)).
  reflexivity.
Defined.

(** ** The two unique keys *)

Lemma NoDup_map_inj {X Y} (f : X -> Y) (l : list X) (a b : X) :
  NoDup (map f l) -> In a l -> In b l -> f a = f b -> a = b.
Proof.
  induction l as [|x l IH]; simpl; [tauto|].
  intros H Ha Hb E. inversion H as [|y m Hx Hn]; subst.
  destruct Ha as [<-|Ha], Hb as [<-|Hb]; auto.
  - exfalso. apply Hx. rewrite E. apply in_map, Hb.
  - exfalso. apply Hx. rewrite <- E. apply in_map, Ha.
Qed.

Lemma find_some_of_member {X} (f : X -> bool) (l : list X) (x : X) :
  In x l -> f x = true -> exists y, find f l = Some y.
Proof.
  intros I T. destruct (find f l) as [y|] eqn:F; [eauto|].
  rewrite (find_none _ _ F x I) in T. discriminate.
Qed.

Lemma lookups_inverse_on (col : list Doc) (path url : string) :
  indexes_ok col ->
  option_map long_url (doc_of col path) = Some url
  <-> option_map short_url_path (doc_of_url col url) = Some path.
Proof.
  intros [Hp Hu]. unfold doc_of, doc_of_url. split.
  - destruct (find (fun d => (short_url_path d =? path)%string) col)
      as [d|] eqn:F; [|discriminate].
    simpl. intros E. inversion E; subst url.
    apply find_some in F as [I P]. apply String.eqb_eq in P.
    destruct (find_some_of_member (fun x => (long_url x =? long_url d)%string)
                col d I (String.eqb_refl _)) as (d' & F').
    rewrite F'. apply find_some in F' as [I' U]. apply String.eqb_eq in U.
    rewrite (NoDup_map_inj _ _ _ _ Hu I' I U). simpl. congruence.
  - destruct (find (fun d => (long_url d =? url)%string) col)
      as [d|] eqn:F; [|discriminate].
    simpl. intros E. inversion E; subst path.
    apply find_some in F as [I U]. apply String.eqb_eq in U.
    destruct (find_some_of_member
                (fun x => (short_url_path x =? short_url_path d)%string)
                col d I (String.eqb_refl _)) as (d' & F').
    rewrite F'. apply find_some in F' as [I' P]. apply String.eqb_eq in P.
    rewrite (NoDup_map_inj _ _ _ _ Hp I' I P). simpl. congruence.
Qed.

(** X12. On a collection with its two unique keys and a storage that
    serves, the two lookups are inverse to each other: a path resolves to
    a long URL exactly when that long URL resolves to the path. *)
Theorem lookups_are_inverse (path url : string) (w : World) :
  network w = [] ->
  indexes_ok (urls_col w) ->
  find_long_url_by_short_url_path path w = (Return (Some url), w)
  <-> find_short_url_path_by_long_url url w = (Return (Some path), w).
Proof.
  intros N H.
  unfold find_long_url_by_short_url_path, find_short_url_path_by_long_url.
  rewrite !find_quiet by exact N.
  pose proof (lookups_inverse_on path url H) as [A B].
  unfold doc_of, doc_of_url in A, B.
  split; intros E; inversion E as [E']; f_equal; f_equal.
  - apply A. exact E'.
  - apply B. exact E'.
Qed.

Lemma lookups_are_inverse_witness :
  let w := start_world [stored_abc12 0] [] (fun _ => 0%nat) in
  find_long_url_by_short_url_path "abc12" w
  = (Return (Some "https://example.com/a"%string), w)
  <-> find_short_url_path_by_long_url "https://example.com/a" w
      = (Return (Some "abc12"%string), w).
Proof.
  intros w.
  apply (@lookups_are_inverse "abc12" "https://example.com/a" w).
  - reflexivity.
  - split; repeat constructor; simpl; tauto.
Defined.

(** ** A body that does not parse *)



(** ** The unique path *)

Lemma unique_path_loop_shape (app : URLShortenerApp) (fuel : nat)
    (w w' : World) (path : string) :
  unique_path_loop app fuel w = (Return path, w') ->
  String.length path = Z.to_nat (_link_length app)
  /\ forallb is_alnum (list_ascii_of_string path) = true.
Proof.
  revert w. induction fuel as [|fuel IH]; intros w; [discriminate|].
  cbn [unique_path_loop]. unfold bind at 1. unfold _generate_short_url_path.
  rewrite random_string_spec. unfold bind at 1.
  destruct (is_short_url_path_exist _ _) as [[[|]|e|] w1]; try discriminate.
  - apply IH.
  - simpl. unfold ret. intros E; inversion E; subst.
    split; [apply length_draw_string | apply draw_string_alnum].
Qed.

(** X14. [_generate_unique_short_url_path], decorated as it is. Whatever
    the schedule, a path it returns has [link_length] characters, all
    letters or digits. With a storage that serves, a live wrapper and a
    random source that draws a free path within the fuel, it does return a
    path: one that no document has, and the collection, the delays and
    the traces are as before, only draws were consumed. *)
Theorem unique_path_generator_returns_a_free_path (app : URLShortenerApp)
    (fuel : nat) (w : World) :
  (forall path w',
      _generate_unique_short_url_path app fuel w = (Return (inl path), w') ->
      String.length path = Z.to_nat (_link_length app)
      /\ forallb is_alnum (list_ascii_of_string path) = true)
  /\ (network w = [] ->
      live W_generate_unique_short_url_path w ->
      (0 < _link_length app)%Z ->
      (exists k, (k < fuel)%nat
                 /\ path_taken (urls_col w) (candidate app w k) = false) ->
      exists path pos,
        _generate_unique_short_url_path app fuel w
        = (Return (inl path), set_random_pos pos w)
        /\ doc_of (urls_col w) path = None).
Proof.
  split.
  - intros path w' E. unfold _generate_unique_short_url_path in E.
    apply inner_result in E
      as [(a & w0 & Ea & F) | [E | [(errors & E) | E]]]; try discriminate.
    inversion Ea; subst a. exact (unique_path_loop_shape _ _ _ F).
  - intros N L Hlen Hfree.
    destruct (@unique_path_loop_finds app fuel w N Hfree)
      as (path & pos & U & T & Len).
    exists path, pos. split.
    + unfold _generate_unique_short_url_path.
      apply inner_returned_pos; [destruct Hfree as (k & Hk & _); lia | exact L | exact U].
    + apply path_not_taken; [|exact T]. intros ->. simpl in Len. lia.
Qed.

Lemma unique_path_generator_returns_a_free_path_witness :
  let w := start_world [stored_abc12 3] []
             (fun n => nth n [0; 1; 2; 53; 54; 3; 4; 5; 6; 7]%nat 0%nat) in
  exists path pos,
    _generate_unique_short_url_path test_app 7 w
    = (Return (inl path), set_random_pos pos w)
    /\ doc_of (urls_col w) path = None.
Proof.
  intros w.
  apply (proj2 (unique_path_generator_returns_a_free_path test_app 7 w)).
  - reflexivity.
  - reflexivity.
  - reflexivity.
  - exists 1%nat. split; [lia | reflexivity].
Defined.

(** ** From the short URL back to the long URL *)

Lemma get_long_url_found (fuel : nat) (path : string) (w : World) (d : Doc) :
  (0 < fuel)%nat -> network w = [] -> live W_get_long_url w ->
  path <> EmptyString ->
  doc_of (urls_col w) path = Some d -> long_url d <> EmptyString ->
  get_long_url fuel (get path) w
  = (Return (web_json_response
               (JObj [("long_url"%string, JStr (long_url d))]) 200), w).
Proof.
  intros Hpos N L P F U.
  assert (get_long_url_body (get path) w
          = (Return (web_json_response
                       (JObj [("long_url"%string, JStr (long_url d))]) 200), w))
    as B; [|unfold get_long_url, backoff_handler, bind;
            rewrite (@inner_returned_pos Response W_get_long_url
                       (get_long_url_body (get path)) fuel w w _ Hpos L B);
            reflexivity].
  unfold get_long_url_body, truthy_str at 1, get. cbn [match_info].
  destruct (String.eqb_spec path EmptyString); [contradiction|].
  cbn [negb]. unfold bind, find_long_url_by_short_url_path.
  rewrite find_quiet by exact N. unfold doc_of in F. rewrite F. simpl.
  unfold truthy_str.
  destruct (String.eqb_spec (long_url d) EmptyString); [contradiction|].
  reflexivity.
Qed.

Lemma redirect_found_quiet (path : string) (w : World) (d : Doc) :
  network w = [] -> path <> EmptyString ->
  doc_of (urls_col w) path = Some d -> long_url d <> EmptyString ->
  fst (redirect_to_original_url (get path) w) = Raise (HTTPFound (long_url d)).
Proof.
  intros N P F U. unfold redirect_to_original_url, truthy_str at 1, get.
  cbn [match_info].
  destruct (String.eqb_spec path EmptyString); [contradiction|].
  cbn [negb]. unfold bind at 1, find_long_url_by_short_url_path.
  rewrite find_quiet by exact N. unfold doc_of in F. rewrite F. simpl.
  unfold truthy_str.
  destruct (String.eqb_spec (long_url d) EmptyString); [contradiction|].
  cbn [negb]. unfold bind, increment_short_url_path_counter.
  rewrite storage_call_quiet by exact N. reflexivity.
Qed.

Lemma doc_of_absent (col : list Doc) (path : string) :
  ~ In path (map short_url_path col) -> doc_of col path = None.
Proof.
  unfold doc_of. induction col as [|x col IH]; simpl; [reflexivity|].
  intros H. destruct (String.eqb_spec (short_url_path x) path) as [E|E].
  - exfalso. apply H. left. exact E.
  - apply IH. tauto.
Qed.

Section RoundTrip.

Variable any_url_error : Json -> option string.

Hypothesis any_url_accepts_strings :
  forall v, any_url_error v = None -> exists s, v = JStr s /\ s <> EmptyString.

Variable app : URLShortenerApp.
Variable fuel : nat.
Variable request : Request.
Variable members : list (string * Json).
Variable url : string.

Hypothesis body_is_object : json_body request = Some (JObj members).
Hypothesis long_url_is_url : dict_get members "long_url" = JStr url.
Hypothesis url_is_valid : any_url_error (JStr url) = None.

(** X16. What GenerateShortURL hands out leads back: in the regime of
    C7 (storage that serves, live wrappers, a collection with its unique
    keys and no empty path, a free path within the fuel), the path of the
    short URL returned for a valid long URL is then answered by
    [get_long_url] with that long URL, and by [redirect_to_original_url]
    with the redirect to it. *)
Theorem short_url_leads_back_to_long_url (w : World) :
  (0 < _link_length app)%Z ->
  network w = [] ->
  live W_generate_short_url w ->
  live W_generate_unique_short_url_path w ->
  live W_get_long_url w ->
  indexes_ok (urls_col w) ->
  paths_nonempty (urls_col w) ->
  (exists k, (k < fuel)%nat
             /\ path_taken (urls_col w) (candidate app w k) = false) ->
  exists path w1,
    generate_short_url any_url_error app fuel request w
    = (Return (short_url_response app path), w1)
    /\ get_long_url fuel (get path) w1
       = (Return (web_json_response (JObj [("long_url"%string, JStr url)]) 200),
          w1)
    /\ fst (redirect_to_original_url (get path) w1) = Raise (HTTPFound url).
Proof.
  intros Hlen N Lg Lu Ll Hidx Hne Hfree.
  assert (0 < fuel)%nat as Hpos by (destruct Hfree as (k & Hk & _); lia).
  assert (url <> EmptyString) as Hurl.
  { destruct (any_url_accepts_strings url_is_valid) as (s & Es & Hs).
    inversion Es; subst. exact Hs. }
  set (body := generate_short_url_body any_url_error app fuel request).
  assert (forall w1 r, body w = (Return r, w1) ->
            generate_short_url any_url_error app fuel request w = (Return r, w1))
    as Hwrap.
  { intros w1 r B. unfold generate_short_url, backoff_handler, bind. fold body.
    rewrite (@inner_returned_pos Response W_generate_short_url body fuel
               w w1 r Hpos Lg B). reflexivity. }
  destruct (find (fun x => (long_url x =? url)%string) (urls_col w))
    as [d|] eqn:F.
  - pose proof F as F0. apply find_some in F0 as [I U].
    apply String.eqb_eq in U.
    assert (short_url_path d <> EmptyString) as P.
    { unfold paths_nonempty in Hne. rewrite Forall_forall in Hne. auto. }
    assert (doc_of (urls_col w) (short_url_path d) = Some d) as D.
    { destruct (find_some_of_member
                  (fun x => (short_url_path x =? short_url_path d)%string)
                  (urls_col w) d I (String.eqb_refl _)) as (d' & F').
      unfold doc_of. rewrite F'. apply find_some in F' as [I' P'].
      apply String.eqb_eq in P'. destruct Hidx as [Hp _].
      rewrite (NoDup_map_inj _ _ _ _ Hp I' I P'). reflexivity. }
    exists (short_url_path d), w. split; [|split].
    + apply Hwrap.
      apply (@body_found any_url_error any_url_accepts_strings app fuel request
               members url body_is_object long_url_is_url url_is_valid
               w d N F P).
    + rewrite <- U.
      apply get_long_url_found; auto. rewrite U. exact Hurl.
    + rewrite <- U.
      apply redirect_found_quiet; auto. rewrite U. exact Hurl.
  - destruct (@body_created any_url_error any_url_accepts_strings app fuel request
                members url body_is_object long_url_is_url url_is_valid
                w N F Lu Hlen Hfree) as (path & pos & B & P).
    set (d := {| short_url_path := path; long_url := url; visits := 0 |}) in *.
    set (w1 := set_urls_col (urls_col w ++ [d]) (set_random_pos pos w)) in *.
    pose proof (Hwrap w1 _ B) as G.
    assert (doc_of (urls_col w1) path = Some d) as D.
    { pose proof (indexes_kept_serve any_url_error app fuel
                    [(GenerateShortURL, request)] w Hidx) as [Hp _].
      simpl in Hp. rewrite G in Hp. simpl in Hp.
      rewrite map_app in Hp. simpl in Hp.
      apply NoDup_remove_2 in Hp. rewrite app_nil_r in Hp.
      unfold doc_of. simpl urls_col.
      apply find_app_none; [apply doc_of_absent, Hp | apply String.eqb_refl]. }
    exists path, w1. split; [exact G|]. split.
    + change url with (long_url d).
      apply get_long_url_found; auto.
    + change url with (long_url d).
      apply redirect_found_quiet; auto.
Qed.

End RoundTrip.

Lemma short_url_leads_back_to_long_url_witness :
  let w := start_world [stored_abc12 3] []
             (fun n => nth n [0; 1; 2; 53; 54; 3; 4; 5; 6; 7]%nat 0%nat) in
  exists path w1,
    generate_short_url sample_any_url_error test_app 7
      (post "https://example.com/b") w
    = (Return (short_url_response test_app path), w1)
    /\ get_long_url 7 (get path) w1
       = (Return (web_json_response
                    (JObj [("long_url"%string, JStr "https://example.com/b")])
                    200), w1)
    /\ fst (redirect_to_original_url (get path) w1)
       = Raise (HTTPFound "https://example.com/b").
Proof.
  intros w.
  apply (@short_url_leads_back_to_long_url
           sample_any_url_error sample_any_url_error_accepts_strings
           test_app 7 (post "https://example.com/b")
           [("long_url"%string, JStr "https://example.com/b")]
           "https://example.com/b" eq_refl eq_refl eq_refl w).
  - reflexivity.
  - reflexivity.
  - reflexivity.
  - reflexivity.
  - reflexivity.
  - split; repeat constructor; simpl; tauto.
  - repeat constructor. discriminate.
  - exists 1%nat. split; [lia | reflexivity].
Defined.

(** ** Counting visits *)

Lemma redirect_quiet_step (path : string) (w : World) (d : Doc) :
  network w = [] -> path <> EmptyString ->
  doc_of (urls_col w) path = Some d -> long_url d <> EmptyString ->
  redirect_to_original_url (get path) w
  = (Raise (HTTPFound (long_url d)),
     set_urls_col
       (update_one (fun x => (short_url_path x =? path)%string) inc_visits
                   (urls_col w)) w).
Proof.
  intros N P F U. unfold redirect_to_original_url, truthy_str at 1, get.
  cbn [match_info].
  destruct (String.eqb_spec path EmptyString); [contradiction|].
  cbn [negb]. unfold bind at 1, find_long_url_by_short_url_path.
  rewrite find_quiet by exact N. unfold doc_of in F. rewrite F. simpl.
  unfold truthy_str.
  destruct (String.eqb_spec (long_url d) EmptyString); [contradiction|].
  cbn [negb]. unfold bind, increment_short_url_path_counter.
  rewrite storage_call_quiet by exact N. reflexivity.
Qed.

Lemma redirects_counted (any_url_error : Json -> option string)
    (app : URLShortenerApp) (fuel : nat) (path : string) (k : nat) :
  path <> EmptyString ->
  forall (w : World) (d : Doc),
    network w = [] ->
    doc_of (urls_col w) path = Some d -> long_url d <> EmptyString ->
    let r := serve any_url_error app fuel
               (repeat (ResolveAndRedirect, get path) k) w in
    fst r = repeat (Raise (HTTPFound (long_url d))) k
    /\ network (snd r) = []
    /\ delays (snd r) = delays w
    /\ visits_of (urls_col (snd r)) path = Some (visits d + Z.of_nat k)%Z.
Proof.
  intros P. induction k as [|k IH]; intros w d N F U.
  - simpl. unfold visits_of. unfold doc_of in F. rewrite F. simpl.
    rewrite Z.add_0_r. auto.
  - cbn [repeat serve handle].
    rewrite (redirect_quiet_step w N P F U).
    set (w1 := set_urls_col _ w).
    assert (doc_of (urls_col w1) path = Some (inc_visits d)) as F1.
    { unfold w1. simpl urls_col. rewrite doc_of_update_one, String.eqb_refl, F.
      reflexivity. }
    destruct (IH w1 (inc_visits d) N F1 U) as (O & N' & D' & V').
    destruct (serve any_url_error app fuel
                (repeat (ResolveAndRedirect, get path) k) w1) as [os w2].
    simpl in *. rewrite O, V'. repeat split; auto.
    f_equal. lia.
Qed.

(** X17. Visits are counted one by one: on a storage that serves, [k]
    requests of ResolveAndRedirect for a stored path are each answered
    with the redirect to its long URL, and the stored counter is then the
    one the path had before plus [k]. GetVisitCount reports that number
    while the delay of its wrapper is below the border; once the delay
    has reached the border it answers 500 instead. *)
Theorem visit_count_reports_the_redirects
    (any_url_error : Json -> option string) (app : URLShortenerApp)
    (fuel : nat) (path : string) (k : nat) (w : World) (d : Doc) :
  path <> EmptyString ->
  network w = [] ->
  doc_of (urls_col w) path = Some d ->
  long_url d <> EmptyString ->
  let r := serve any_url_error app fuel
             (repeat (ResolveAndRedirect, get path) k) w in
  fst r = repeat (Raise (HTTPFound (long_url d))) k
  /\ visits_of (urls_col (snd r)) path = Some (visits d + Z.of_nat k)%Z
  /\ (live W_get_short_url_visits w ->
      get_short_url_visits (S fuel) (get path) (snd r)
      = (Return
           {| body :=
                JsonBody (JObj [("visits"%string,
                                 JNum (visits d + Z.of_nat k))]);
              status := 200 |},
         snd r))
  /\ (exhausted W_get_short_url_visits w ->
      get_short_url_visits fuel (get path) (snd r)
      = (Return {| body := Text "An internal server error occurred.";
                   status := 500 |},
         snd r)).
Proof.
  intros P N F U r.
  destruct (redirects_counted any_url_error app fuel k P w N F U)
    as (O & N' & D' & V'). fold r in O, N', D', V'.
  split; [exact O|]. split; [exact V'|]. split.
  - intros L. rewrite get_short_url_visits_quiet.
    + unfold get at 1. cbn [match_info]. rewrite V'. reflexivity.
    + exact N'.
    + unfold live, current_sleep_time in *. rewrite D'. exact L.
    + exact P.
  - intros X. apply backoff_handler_exhausted.
    unfold exhausted, current_sleep_time in *. rewrite D'. exact X.
Qed.

(** Three redirects from a fresh start, and three in a world where seven
    earlier lookups of the count found the storage unreachable: the
    counter is 3 in both, GetVisitCount reports it in the first and
    answers 500 in the second. *)
Lemma visit_count_reports_the_redirects_witness :
  let w0 := start_world [stored_abc12 0] [] (fun _ => 0%nat) in
  let r0 := serve sample_any_url_error test_app 7
              (repeat (ResolveAndRedirect, get "abc12") 3) w0 in
  let w := set_urls_col [stored_abc12 0]
             (snd (get_short_url_visits 7 (get "abc12")
                     (start_world [] (repeat Unavailable 7) (fun _ => 0%nat)))) in
  let r := serve sample_any_url_error test_app 7
             (repeat (ResolveAndRedirect, get "abc12") 3) w in
  (live W_get_short_url_visits w0
   /\ get_short_url_visits 8 (get "abc12") (snd r0)
      = (Return
           {| body :=
                JsonBody (JObj [("visits"%string,
                                 JNum (visits (stored_abc12 0) + Z.of_nat 3))]);
              status := 200 |},
         snd r0))
  /\ exhausted W_get_short_url_visits w
  /\ fst r = repeat (Raise (HTTPFound (long_url (stored_abc12 0)))) 3
  /\ visits_of (urls_col (snd r)) "abc12"
     = Some (visits (stored_abc12 0) + Z.of_nat 3)%Z
  /\ get_short_url_visits 7 (get "abc12") (snd r)
     = (Return {| body := Text "An internal server error occurred.";
                  status := 500 |},
        snd r).
Proof.
  intros w0 r0 w r.
  assert (live W_get_short_url_visits w0) as L by reflexivity.
  assert (exhausted W_get_short_url_visits w) as X by reflexivity.
  split.
  - split; [exact L|].
    destruct (@visit_count_reports_the_redirects sample_any_url_error test_app 7
                "abc12" 3 w0 (stored_abc12 0))
      as (_ & _ & E & _); [discriminate | reflexivity | reflexivity
                           | discriminate | exact (E L)].
  - destruct (@visit_count_reports_the_redirects sample_any_url_error test_app 7
                "abc12" 3 w (stored_abc12 0))
      as (O & V & _ & E); [discriminate | reflexivity | reflexivity
                           | discriminate |].
    split; [exact X|]. split; [exact O|]. split; [exact V|]. exact (E X).
Defined.
